(** * git-around: a shallow embedding of [git-around.py]

    The program reads a YAML configuration, resolves every [repos] entry
    (a literal path or a glob) into [RepoConfig] objects, and then either
    runs the housekeeping tasks of every repository or reports the stale
    ones.  The embedding follows the Python source function by function:

    - Python objects coming out of [yaml.safe_load] are dynamically typed,
      so they are kept as a small universe [value] with Python's
      truthiness, [dict.get] and iteration written out;
    - every method runs in a state-and-exception monad [M]: the state holds
      the outside world, the records handed to [logging], and the list of
      subprocess invocations made so far; exceptions are Python's;
    - [pathlib], the file system, [fnmatch], [subprocess], [yaml] and the
      clock are library code, not code of this repository: they are the
      fields of the class [Platform]. *)

From Stdlib Require Import List String Ascii Bool ZArith QArith Lia.
Import ListNotations.

Set Implicit Arguments.
Local Set Warnings "-register-all".

Local Open Scope string_scope.
Local Open Scope list_scope.

(** ** Python values *)

(** What [yaml.safe_load] can return (floats and dates left out), which is
    also what the fields of a [RepoConfig] and a command hold.  A YAML
    mapping is a [dict]; only string keys are modelled, and [dict_get]
    returns the first binding of a key. *)
Inductive value : Type :=
| VNone
| VBool (b : bool)
| VInt (n : Z)
| VStr (s : string)
| VList (l : list value)
| VDict (items : list (string * value)).

(** Python exceptions the program can meet.  [OSError] stands for its
    subclasses too ([FileNotFoundError], [NotADirectoryError],
    [PermissionError]). *)
Inductive exn : Type :=
| SystemExit (code : Z)
| AttributeError
| TypeError
| ValueError
| OSError
| CalledProcessError (returncode : Z)
| RuntimeError
| IndexError
| UnicodeDecodeError.

(** [bool(v)]: the truth value Python's [if], [or] and [and] test. *)
Definition truthy (v : value) : bool :=
  match v with
  | VNone => false
  | VBool b => b
  | VInt n => negb (n =? 0)%Z
  | VStr s => negb (s =? "")
  | VList l => match l with [] => false | _ :: _ => true end
  | VDict items => match items with [] => false | _ :: _ => true end
  end.

Fixpoint dict_get (items : list (string * value)) (k : string) : option value :=
  match items with
  | [] => None
  | (k', v) :: rest => if k' =? k then Some v else dict_get rest k
  end.

(** [d.get(k, default)]: only a [dict] has the method. *)
Definition py_get (d : value) (k : string) (default : value) : exn + value :=
  match d with
  | VDict items =>
      inr (match dict_get items k with Some v => v | None => default end)
  | _ => inl AttributeError
  end.

(** The elements [for x in v] visits: a list's items, a dict's keys, a
    string's characters; anything else is not iterable. *)
Definition py_iter (v : value) : exn + list value :=
  match v with
  | VList l => inr l
  | VDict items => inr (map (fun kv => VStr (fst kv)) items)
  | VStr s => inr (map (fun c => VStr (String c "")) (list_ascii_of_string s))
  | _ => inl TypeError
  end.

(** [ch in s] for a one-character [ch]. *)
Fixpoint contains_char (ch : ascii) (s : string) : bool :=
  match s with
  | EmptyString => false
  | String c rest => Ascii.eqb c ch || contains_char ch rest
  end.

(** [s.strip()]: Python strips the characters of [str.isspace]; these are
    the ASCII ones. *)
Definition is_space (c : ascii) : bool :=
  let n := nat_of_ascii c in
  ((9 <=? n) && (n <=? 13) || (28 <=? n) && (n <=? 32))%nat.

Fixpoint lstrip (s : list ascii) : list ascii :=
  match s with
  | c :: rest => if is_space c then lstrip rest else s
  | [] => []
  end.

Definition strip (s : string) : string :=
  string_of_list_ascii
    (rev (lstrip (rev (lstrip (list_ascii_of_string s))))).

Definition digit_of (c : ascii) : option Z :=
  let n := nat_of_ascii c in
  if ((48 <=? n) && (n <=? 57))%nat then Some (Z.of_nat (n - 48)) else None.

(** Decimal digits, single underscores allowed between two digits. *)
Fixpoint int_digits (s : list ascii) (acc : Z) (after_digit : bool)
    : option Z :=
  match s with
  | [] => if after_digit then Some acc else None
  | c :: rest =>
      match digit_of c with
      | Some d => int_digits rest (10 * acc + d)%Z true
      | None =>
          if Ascii.eqb c "_"%char && after_digit
          then int_digits rest acc false
          else None
      end
  end.

(** [int(s)] on a string: surrounding white space, an optional sign, then
    decimal digits; [None] is [ValueError]. *)
Definition py_int (s : string) : option Z :=
  match list_ascii_of_string (strip s) with
  | "-"%char :: ds => option_map Z.opp (int_digits ds 0%Z false)
  | "+"%char :: ds => int_digits ds 0%Z false
  | ds => int_digits ds 0%Z false
  end.

(** [x < y] on numbers. *)
Definition Qltb (x y : Q) : bool := negb (Qle_bool y x).

(** An argument vector as a Python list of strings. *)
Definition argv (args : list string) : value := VList (map VStr args).

(** What [subprocess] does with the arguments before any process exists.
    The command becomes a list ([list(args)], a string standing for
    itself); without a shell the program is its first element; every
    element must be a string without a NUL character. *)
Definition has_nul (s : string) : bool := contains_char "000"%char s.

Fixpoint argv_error (args : list value) : option exn :=
  match args with
  | [] => None
  | VStr s :: rest => if has_nul s then Some ValueError else argv_error rest
  | _ :: _ => Some TypeError
  end.

Definition popen_error (cmd : value) (shell : bool) : option exn :=
  match cmd with
  | VStr s => argv_error [VStr s]
  | VList l =>
      match l with
      | [] => if shell then None else Some IndexError
      | _ :: _ => argv_error l
      end
  | VDict items =>
      match items with
      | [] => if shell then None else Some IndexError
      | _ :: _ => argv_error (map (fun kv => VStr (fst kv)) items)
      end
  | _ => Some TypeError
  end.

(** ** The platform: library code and the outside world *)

(** What [subprocess.run(..., capture_output=True, text=True)] can do with
    a command: raise [e] over the arguments before any process exists;
    fail to start the process (an [OSError] such as [FileNotFoundError]);
    run it to completion and hand back a [CompletedProcess]; or run it and
    fail to decode what it wrote ([UnicodeDecodeError]), whatever its exit
    code. *)
Inductive completion : Type :=
| Rejected (e : exn)
| LaunchError
| Completed (returncode : Z) (stdout stderr : string)
| Garbled (returncode : Z).

(** How a process that [subprocess] has asked the system for ends: it
    cannot be started, it runs to its end and what it wrote is valid text,
    or it runs to its end and what it wrote is not. *)
Inductive process : Type :=
| Unstarted
| Exited (returncode : Z) (stdout stderr : string)
| Undecodable (returncode : Z).

Definition completion_of (p : process) : completion :=
  match p with
  | Unstarted => LaunchError
  | Exited returncode stdout stderr => Completed returncode stdout stderr
  | Undecodable returncode => Garbled returncode
  end.

(** What opening and parsing the configuration file can do. *)
Inductive yaml_result : Type :=
| OpenError
| YAMLError
| Loaded (data : value).

Class Platform : Type := {
  Path : Type;
  World : Type;
  (** [Path(s)], [p.parent], [p.name], [p / s] *)
  mkpath : string -> Path;
  parent : Path -> Path;
  name : Path -> string;
  joinpath : Path -> string -> Path;
  (** [p.expanduser()] and [Path.home()]; [None]: the home directory
      cannot be determined and [RuntimeError] is raised *)
  expanduser : Path -> option Path;
  home : option Path;
  (** [p.exists()] and [p.is_dir()]; [None]: [stat] fails with an error
      that [pathlib] raises again, such as [PermissionError] (a missing
      path is not one: the answer is [False]) *)
  path_exists : World -> Path -> option bool;
  is_dir : World -> Path -> option bool;
  (** [p.iterdir()]; [None]: it raises [OSError] *)
  iterdir : World -> Path -> option (list Path);
  (** [p.resolve()]; the program calls it only on a path it has just
      found to be a directory, or to hold one *)
  resolve : World -> Path -> Path;
  (** [fnmatch.fnmatch(name, pattern)] *)
  fnmatch : string -> string -> bool;
  (** [open(p)] followed by [yaml.safe_load] *)
  safe_load : World -> Path -> yaml_result;
  (** the process behind [subprocess.run(cmd, shell=..., cwd=...)] and
      [subprocess.check_output], once the arguments are accepted; the
      command may change the world *)
  execute : World -> value -> bool -> Path -> process * World;
  (** [time.time()], in seconds; reading the clock lets time pass.  The
      float of Python is a rational here: the one subtraction and the one
      comparison that decide staleness are exact on times and thresholds
      of realistic size. *)
  time_time : World -> Q * World
}.

(** [subprocess.run(cmd, shell=shell, cwd=cwd, capture_output=True,
    text=True)] up to the end of the process: the arguments are checked
    first, and a rejected command never reaches the platform. *)
Definition spawn `{Platform} (w : World) (cmd : value) (shell : bool)
    (cwd : Path) : completion * World :=
  match popen_error cmd shell with
  | Some e => (Rejected e, w)
  | None =>
      let (p, w') := execute w cmd shell cwd in (completion_of p, w')
  end.

(** ** Logging *)

Inductive level : Type := DEBUG | INFO | WARNING | ERROR.

(** One constructor per format string of the source; the arguments are the
    values interpolated into it. *)
Inductive message `{Platform} : Type :=
| MsgInitRepoConfig (path : Path)
    (* "Initializing RepoConfig with path: {path}" *)
| MsgInitConfig (paths : list Path)
    (* "Initializing GitAroundConfig with repos: {repos}" *)
| MsgLoading (path : Path)
    (* "Loading configuration from file: {path}" *)
| MsgConfigNotFound (path : Path)
    (* "Config file not found: {path}" *)
| MsgParseFailed
    (* "Failed to parse YAML: {e}" *)
| MsgAddingRepo (path : Path)
    (* "Adding repo path: {repo_path}" *)
| MsgInitialized (dry_run : bool) (stale_days : option Z)
    (* "GitAround initialized (mode={mode}, stale_days={stale_days})" *)
| MsgRunning
    (* "Running GitAround..." *)
| MsgProcessingAt (path : Path)
    (* "Processing repository at: {repo_cfg.path}" *)
| MsgNotADirectory (path : Path)
    (* "Path does not exist or is not a directory: {repo_cfg.path}" *)
| MsgProcessingRepo (path : Path)
    (* "Processing repo: {repo.path}" *)
| MsgWouldExecute (desc : string) (cmd : value) (cwd : Path)
    (* "[DRY RUN] Would execute {desc} command: {cmd} in {cwd}" *)
| MsgExecuting (desc : string) (cmd : value) (cwd : Path)
    (* "Executing {desc} command: {cmd} in {cwd}" *)
| MsgCommandFailed (desc : string) (cmd : value)
    (* "Command failed ({desc}): {cmd}" *)
| MsgOutput (text : string)
    (* result.stderr, result.stdout *)
| MsgScanning (stale_days : Z)
    (* "Scanning for repositories stale for >= {self.stale_days} days..." *)
| MsgStale (path : Path) (age_days : Q)
    (* "STALE: {repo_cfg.path} (last commit: {age_days:.1f} days ago)" *)
| MsgNoLastCommit (path : Path)
    (* "Could not determine last commit for {repo_cfg.path}" *)
| MsgUsingConfig (path : Path)
    (* "Using config file: {config_path}" *).

Arguments MsgInitRepoConfig {_} _.
Arguments MsgInitConfig {_} _.
Arguments MsgLoading {_} _.
Arguments MsgConfigNotFound {_} _.
Arguments MsgParseFailed {_}.
Arguments MsgAddingRepo {_} _.
Arguments MsgInitialized {_} _ _.
Arguments MsgRunning {_}.
Arguments MsgProcessingAt {_} _.
Arguments MsgNotADirectory {_} _.
Arguments MsgProcessingRepo {_} _.
Arguments MsgWouldExecute {_} _ _ _.
Arguments MsgExecuting {_} _ _ _.
Arguments MsgCommandFailed {_} _ _.
Arguments MsgOutput {_} _.
Arguments MsgScanning {_} _.
Arguments MsgStale {_} _ _.
Arguments MsgNoLastCommit {_} _.
Arguments MsgUsingConfig {_} _.

Definition record `{Platform} : Type := (level * message)%type.

(** ** The monad of the program *)

(** One call of [subprocess.run] or [subprocess.check_output]. *)
Record invocation `{Platform} : Type := Invoke {
  inv_cmd : value;
  inv_shell : bool;
  inv_cwd : Path
}.
Arguments Invoke {_} _ _ _.

Record State `{Platform} : Type := mkState {
  world : World;
  log : list record;
  spawned : list invocation
}.
Arguments mkState {_} _ _ _.

Inductive outcome (A : Type) : Type :=
| Return (a : A)
| Raise (e : exn).
Arguments Raise {A} e.

Definition M `{Platform} (A : Type) : Type := State -> outcome A * State.

Section Monad.
Context `{Platform}.

Definition ret {A} (a : A) : M A := fun st => (Return a, st).

Definition raise {A} (e : exn) : M A := fun st => (Raise e, st).

Definition bind {A B} (c : M A) (k : A -> M B) : M B :=
  fun st =>
    match c st with
    | (Return a, st') => k a st'
    | (Raise e, st') => (Raise e, st')
    end.

(** [try: c  except CalledProcessError: h] *)
Definition except_CalledProcessError {A} (c : M A) (h : M A) : M A :=
  fun st =>
    match c st with
    | (Raise (CalledProcessError _), st') => h st'
    | r => r
    end.

Definition lift {A} (r : exn + A) : M A :=
  match r with
  | inl e => raise e
  | inr a => ret a
  end.

(** A call of [logging.debug], [.info], [.warning] or [.error]. *)
Definition logging (lvl : level) (msg : message) : M unit :=
  fun st => (Return tt,
             mkState (world st) (log st ++ [(lvl, msg)]) (spawned st)).

(** A read of the file system. *)
Definition ask {A} (f : World -> A) : M A :=
  fun st => (Return (f (world st)), st).

(** A read that raises [e] when the platform answers [None]. *)
Definition ask_or {A} (e : exn) (f : World -> option A) : M A :=
  fun st =>
    match f (world st) with
    | Some a => (Return a, st)
    | None => (Raise e, st)
    end.

(** [time.time()] *)
Definition now : M Q :=
  fun st =>
    let (t, w) := time_time (world st) in
    (Return t, mkState w (log st) (spawned st)).

(** The call shared by [subprocess.run] and [subprocess.check_output].
    A command whose arguments are rejected leaves no trace; any other is
    recorded, and the platform decides how it ends. *)
Definition start (cmd : value) (shell : bool) (cwd : Path) : M completion :=
  fun st =>
    match spawn (world st) cmd shell cwd with
    | (Rejected e, _) => (Return (Rejected e), st)
    | (r, w) =>
        (Return r, mkState w (log st) (spawned st ++ [Invoke cmd shell cwd]))
    end.

(** [for x in l: acc = body(acc, x)], for a loop that fills a list *)
Fixpoint fold_each {A B} (l : list A) (acc : B) (body : B -> A -> M B)
    : M B :=
  match l with
  | [] => ret acc
  | x :: rest => bind (body acc x) (fun acc' => fold_each rest acc' body)
  end.

(** [for x in l: body(x)] *)
Fixpoint for_each {A} (l : list A) (body : A -> M unit) : M unit :=
  match l with
  | [] => ret tt
  | x :: rest => bind (body x) (fun _ => for_each rest body)
  end.
End Monad.

Notation "x <- c ;; k" := (bind c (fun x => k))
  (at level 61, c at next level, right associativity).
Notation "c ;; k" := (bind c (fun _ => k))
  (at level 61, right associativity).

(** ** The classes of the source *)

Record RepoConfig `{Platform} : Type := mkRepoConfig {
  path : Path;
  auto_pull : value;
  auto_push : value;
  clean : value;
  update_submodules : value;
  commands : value
}.
Arguments mkRepoConfig {_} _ _ _ _ _ _.

Record GitAroundConfig `{Platform} : Type := mkConfig {
  repos : list RepoConfig
}.
Arguments mkConfig {_} _.

Record GitAround `{Platform} : Type := mkGitAround {
  config : GitAroundConfig;
  dry_run : bool;
  stale_days : option Z
}.
Arguments mkGitAround {_} _ _ _.

(** ** [class GitAround] *)

Section Engine.
Context `{Platform}.

(** [GitAround._run_command] *)
Definition _run_command (self : GitAround) (cmd : value) (shell : bool)
    (cwd : Path) : M unit :=
  let desc := if shell then "shell" else "git" in
  if dry_run self then
    logging INFO (MsgWouldExecute desc cmd cwd)
  else
    logging INFO (MsgExecuting desc cmd cwd) ;;
    result <- start cmd shell cwd ;;
    match result with
    | Rejected e => raise e
    | LaunchError => raise OSError
    | Garbled _ => raise UnicodeDecodeError
    | Completed returncode stdout stderr =>
        if negb (returncode =? 0)%Z then
          logging ERROR (MsgCommandFailed desc cmd) ;;
          logging ERROR (MsgOutput stderr)
        else
          logging DEBUG (MsgOutput stdout)
    end.

Definition git_pull : value := argv ["git"; "pull"].
Definition git_clean : value := argv ["git"; "clean"; "-fd"].
Definition git_submodule_update : value :=
  argv ["git"; "submodule"; "update"; "--init"; "--recursive"].
Definition git_push : value := argv ["git"; "push"].

(** [GitAround._process_repo] *)
Definition _process_repo (self : GitAround) (repo : RepoConfig) : M unit :=
  logging INFO (MsgProcessingRepo (path repo)) ;;
  let git_tasks :=
    [ (git_pull, auto_pull repo);
      (git_clean, clean repo);
      (git_submodule_update, update_submodules repo) ] in
  for_each git_tasks (fun task =>
    let '(cmd_args, enabled) := task in
    if truthy enabled then _run_command self cmd_args false (path repo)
    else ret tt) ;;
  cmds <- lift (py_iter (commands repo)) ;;
  for_each cmds (fun cmd => _run_command self cmd true (path repo)) ;;
  if truthy (auto_push repo) then
    _run_command self git_push false (path repo)
  else ret tt.

(** The body of the loop of [GitAround.run]. *)
Definition run_body (self : GitAround) (repo_cfg : RepoConfig) : M unit :=
  logging INFO (MsgProcessingAt (path repo_cfg)) ;;
  d <- ask_or OSError (fun w => is_dir w (path repo_cfg)) ;;
  if negb d then
    logging WARNING (MsgNotADirectory (path repo_cfg))
  else
    _process_repo self repo_cfg.

Definition git_log : value := argv ["git"; "log"; "-1"; "--format=%ct"].

(** [subprocess.check_output(cmd, cwd=cwd, text=True)]: the captured
    standard output, or [CalledProcessError] on a non-zero exit. *)
Definition check_output (cmd : value) (cwd : Path) : M string :=
  result <- start cmd false cwd ;;
  match result with
  | Rejected e => raise e
  | LaunchError => raise OSError
  | Garbled _ => raise UnicodeDecodeError
  | Completed returncode stdout _ =>
      if (returncode =? 0)%Z then ret stdout
      else raise (CalledProcessError returncode)
  end.

(** The body of the loop of [GitAround._report_stale]. *)
Definition _report_stale_body (cutoff : Q) (repo_cfg : RepoConfig)
    : M unit :=
  let git_dir := path repo_cfg in
  d <- ask_or OSError (fun w => is_dir w git_dir) ;;
  if negb d then ret tt
  else
    except_CalledProcessError
      (out <- check_output git_log git_dir ;;
       let ts := strip out in
       last <- match py_int ts with
               | Some n => ret n
               | None => raise ValueError
               end ;;
       t <- now ;;
       let age_days := ((t - inject_Z last) / 86400)%Q in
       stale <- (if Qltb (inject_Z last) cutoff then ret true
                 else if truthy (update_submodules repo_cfg) then
                   ask_or OSError
                     (fun w =>
                        path_exists w
                          (joinpath (path repo_cfg) ".gitmodules"))
                 else ret false) ;;
       if stale then logging INFO (MsgStale (path repo_cfg) age_days)
       else ret tt)
      (logging WARNING (MsgNoLastCommit (path repo_cfg))).

(** [GitAround._report_stale]; [None * 86400] is a [TypeError]. *)
Definition _report_stale (self : GitAround) : M unit :=
  match stale_days self with
  | None => raise TypeError
  | Some days =>
      logging INFO (MsgScanning days) ;;
      t <- now ;;
      let cutoff := (t - inject_Z (days * 86400))%Q in
      for_each (repos (config self)) (_report_stale_body cutoff)
  end.

(** [GitAround.run] *)
Definition run (self : GitAround) : M unit :=
  match stale_days self with
  | Some _ => _report_stale self
  | None =>
      logging INFO MsgRunning ;;
      for_each (repos (config self)) (run_body self)
  end.

(** [GitAround.__init__] *)
Definition GitAround_init (config : GitAroundConfig) (dry_run : bool)
    (stale_days : option Z) : M GitAround :=
  logging DEBUG (MsgInitialized dry_run stale_days) ;;
  ret (mkGitAround config dry_run stale_days).
End Engine.

(** ** [class RepoConfig], [class GitAroundConfig] *)

Section Config.
Context `{Platform}.

(** [RepoConfig.__init__] *)
Definition RepoConfig_init (path : Path)
    (auto_pull auto_push clean update_submodules commands : value)
    : M RepoConfig :=
  logging DEBUG (MsgInitRepoConfig path) ;;
  ret (mkRepoConfig path auto_pull auto_push clean update_submodules
         (if truthy commands then commands else VList [])).

(** [GitAroundConfig.__init__] *)
Definition GitAroundConfig_init (repos : list RepoConfig)
    : M GitAroundConfig :=
  logging DEBUG (MsgInitConfig (map path repos)) ;;
  ret (mkConfig repos).

(** [any(ch in raw_path for ch in ['*', '?', '['])] *)
Definition has_glob (raw_path : string) : bool :=
  existsb (fun ch => contains_char ch raw_path) ["*"; "?"; "["]%char.

(** The [if]/[else] of [load_from_file] that fills [matched_paths]. *)
Definition match_paths (raw_path : string) (expanded : Path)
    : M (list Path) :=
  if has_glob raw_path then
    pe <- ask_or OSError (fun w => path_exists w (parent expanded)) ;;
    base <- (if pe then ret (parent expanded)
             else ask_or RuntimeError (fun _ => home)) ;;
    let pattern := name expanded in
    listing <- ask (fun w => iterdir w base) ;;
    match listing with
    | None => raise OSError
    | Some entries =>
        fold_each entries [] (fun matched_paths p =>
          if fnmatch (name p) pattern then
            g <- ask_or OSError (fun w => is_dir w (joinpath p ".git")) ;;
            if g then
              r <- ask (fun w => resolve w p) ;;
              ret (matched_paths ++ [r])
            else ret matched_paths
          else ret matched_paths)
    end
  else
    d <- ask_or OSError (fun w => is_dir w expanded) ;;
    if d then
      r <- ask (fun w => resolve w expanded) ;;
      ret [r]
    else ret [].

(** The body of the loop over the entries of [repos]: the plans of one
    entry are appended to [repos]. *)
Definition load_entry (repos : list RepoConfig) (entry : value)
    : M (list RepoConfig) :=
  raw <- lift (py_get entry "path" VNone) ;;
  match raw with
  | VStr raw_path =>
      expanded <- ask_or RuntimeError
                    (fun _ => expanduser (mkpath raw_path)) ;;
      matched_paths <- match_paths raw_path expanded ;;
      fold_each matched_paths repos (fun repos repo_path =>
        logging DEBUG (MsgAddingRepo repo_path) ;;
        a_pull <- lift (py_get entry "auto_pull" (VBool true)) ;;
        a_push <- lift (py_get entry "auto_push" (VBool false)) ;;
        cl <- lift (py_get entry "clean" (VBool false)) ;;
        subm <- lift (py_get entry "update_submodules" (VBool false)) ;;
        cmds <- lift (py_get entry "commands" (VList [])) ;;
        repo <- RepoConfig_init repo_path a_pull a_push cl subm cmds ;;
        ret (repos ++ [repo]))
  | _ => raise TypeError        (* [Path(raw_path)] *)
  end.

(** [GitAroundConfig.load_from_file] *)
Definition load_from_file (p : Path) : M GitAroundConfig :=
  logging INFO (MsgLoading p) ;;
  e <- ask_or OSError (fun w => path_exists w p) ;;
  (if negb e then
     logging ERROR (MsgConfigNotFound p) ;;
     raise (SystemExit 1)
   else ret tt) ;;
  r <- ask (fun w => safe_load w p) ;;
  data <- match r with
          | OpenError => raise OSError
          | YAMLError =>
              logging ERROR MsgParseFailed ;;
              raise (SystemExit 1)
          | Loaded data => ret data
          end ;;
  rs <- lift (py_get data "repos" (VList [])) ;;
  entries <- lift (py_iter rs) ;;
  repos <- fold_each entries [] load_entry ;;
  GitAroundConfig_init repos.

(** [main], after [argparse] and the choice of [config_path]. *)
Definition main (config_path : Path) (dry_run : bool)
    (stale : option Z) : M unit :=
  logging INFO (MsgUsingConfig config_path) ;;
  config <- load_from_file config_path ;;
  runner <- GitAround_init config dry_run stale ;;
  run runner.
End Config.

(** ** The plan of the specification *)

(** The specification describes a resolved repository as a typed record:
    boolean flags and a list of shell-command strings.  [to_config] is the
    [RepoConfig] object that holds such a plan. *)
Record RepositoryPlan `{Platform} : Type := mkPlan {
  plan_path : Path;
  autoPull : bool;
  autoPush : bool;
  plan_clean : bool;
  updateSubmodules : bool;
  extraCommands : list string
}.
Arguments mkPlan {_} _ _ _ _ _ _.

Section Plans.
Context `{Platform}.

Definition to_config (p : RepositoryPlan) : RepoConfig :=
  mkRepoConfig (plan_path p) (VBool (autoPull p)) (VBool (autoPush p))
    (VBool (plan_clean p)) (VBool (updateSubmodules p))
    (VList (map VStr (extraCommands p))).

Definition when (b : bool) (t : invocation) : list invocation :=
  if b then [t] else [].

(** The task sequence as the specification words it: pull, clean,
    submodule update, every extra command in list order, push; each of
    the four git tasks only if enabled. *)
Definition task_sequence (p : RepositoryPlan) : list invocation :=
  when (autoPull p) (Invoke git_pull false (plan_path p))
  ++ when (plan_clean p) (Invoke git_clean false (plan_path p))
  ++ when (updateSubmodules p)
       (Invoke git_submodule_update false (plan_path p))
  ++ map (fun c => Invoke (VStr c) true (plan_path p)) (extraCommands p)
  ++ when (autoPush p) (Invoke git_push false (plan_path p)).

(** One task handed to the command runner. *)
Definition run_task (self : GitAround) (t : invocation) : M unit :=
  _run_command self (inv_cmd t) (inv_shell t) (inv_cwd t).

(** The record a dry run writes for a task. *)
Definition describe (t : invocation) : record :=
  (INFO, MsgWouldExecute (if inv_shell t then "shell" else "git")
           (inv_cmd t) (inv_cwd t)).

Definition is_description (r : record) : bool :=
  match snd r with
  | MsgWouldExecute _ _ _ => true
  | _ => false
  end.

(** The state after some records were logged. *)
Definition logged (st : State) (l : list record) : State :=
  mkState (world st) (log st ++ l) (spawned st).
End Plans.

(** ** A small POSIX-like platform, to run the program on concrete inputs *)

Module Posix.

(** The file system is a list of directories, a list of regular files,
    the listing of each directory that can be listed, and the paths that
    [stat] refuses to look at; commands leave it alone and the clock
    stands still. *)
Record filesystem : Type := mkFilesystem {
  dirs : list string;
  files : list string;
  listing : list (string * list string);
  config_file : yaml_result;
  clock : Q;
  locked : list string
}.

Definition mem (s : string) (l : list string) : bool :=
  existsb (String.eqb s) l.

Fixpoint assoc (k : string) (l : list (string * list string))
    : option (list string) :=
  match l with
  | [] => None
  | (k', v) :: rest => if k' =? k then Some v else assoc k rest
  end.

(** The characters after the last [/], and the ones before it. *)
Fixpoint split_last (s : list ascii) (dir cur : list ascii)
    : list ascii * list ascii :=
  match s with
  | [] => (dir, cur)
  | c :: rest =>
      if Ascii.eqb c "/" then
        split_last rest (match dir, cur with
                         | [], [] => []
                         | _, _ => dir ++ "/"%char :: cur
                         end) []
      else split_last rest dir (cur ++ [c])
  end.

Definition base_name (p : string) : string :=
  string_of_list_ascii (snd (split_last (list_ascii_of_string p) [] [])).

Definition dir_name (p : string) : string :=
  match fst (split_last (list_ascii_of_string p) [] []) with
  | [] => "/"
  | d => string_of_list_ascii d
  end.

(** Shell-style matching with [*] and [?]. *)
Fixpoint glob (pat s : list ascii) : bool :=
  match pat with
  | [] => match s with [] => true | _ :: _ => false end
  | c :: pat' =>
      if Ascii.eqb c "*" then
        (fix star (s : list ascii) : bool :=
           glob pat' s
           || match s with [] => false | _ :: s' => star s' end) s
      else
        match s with
        | [] => false
        | d :: s' => (Ascii.eqb c "?" || Ascii.eqb c d) && glob pat' s'
        end
  end.

(** [~] and [~/...] stand for the home directory; the home of another
    user is not known. *)
Definition expand (p : string) : option string :=
  match p with
  | String "~" EmptyString => Some "/home/user"
  | String "~" (String "/" rest) => Some ("/home/user/" ++ rest)%string
  | String "~" _ => None
  | _ => Some p
  end.

Definition stat (w : filesystem) (p : string) (answer : bool) : option bool :=
  if mem p (locked w) then None else Some answer.

(** The platform on which every command ends as [behaviour] says. *)
Definition platform (behaviour : value -> process) : Platform := {|
  Path := string;
  World := filesystem;
  mkpath := fun s => s;
  parent := dir_name;
  name := base_name;
  joinpath := fun p s => (p ++ "/" ++ s)%string;
  expanduser := expand;
  home := Some "/home/user";
  path_exists := fun w p => stat w p (mem p (dirs w) || mem p (files w));
  is_dir := fun w p => stat w p (mem p (dirs w));
  iterdir := fun w p => assoc p (listing w);
  resolve := fun _ p => p;
  fnmatch := fun n pat =>
    glob (list_ascii_of_string pat) (list_ascii_of_string n);
  safe_load := fun w _ => config_file w;
  execute := fun w cmd _ _ => (behaviour cmd, w);
  time_time := fun w => (clock w, w)
|}.

Definition initial (b : value -> process) (w : filesystem)
    : @State (platform b) :=
  @mkState (platform b) w [] [].

(** Every command succeeds. *)
Definition all_ok (_ : value) : process := Exited 0 "" "".

(** Every command runs and exits with status 1. *)
Definition all_fail (_ : value) : process := Exited 1 "" "fatal".

(** Every command succeeds and prints [out]. *)
Definition prints (out : string) (_ : value) : process :=
  Exited 0 out "".

(** What [git log -1 --format=%ct] prints for a commit made at [ts]. *)
Definition timestamp_line (ts : string) : string :=
  (ts ++ String (ascii_of_nat 10) "")%string.


(** [git] is not installed: an argument vector cannot be started, a
    shell string is run by the shell. *)
Definition no_git (cmd : value) : process :=
  match cmd with
  | VList _ => Unstarted
  | _ => Exited 0 "" ""
  end.
End Posix.

(** ** Vocabulary of the statements *)

Section Vocabulary.
Context `{Platform}.

(** The housekeeping run that started in [st0] has processed the plans
    [before], found the path of [p] to be a directory, run the tasks
    [done] of [p] without an exception, and now stands in [st]. *)
Definition reaches (self : GitAround) (before : list RepositoryPlan)
    (p : RepositoryPlan) (done : list invocation) (st0 st : State) : Prop :=
  exists st1,
    for_each (map to_config before) (run_body self)
      (logged st0 [(INFO, MsgRunning)]) = (Return tt, st1)
    /\ is_dir (world st1) (plan_path p) = Some true
    /\ for_each done (run_task self)
         (logged st1 [(INFO, MsgProcessingAt (plan_path p));
                      (INFO, MsgProcessingRepo (plan_path p))])
       = (Return tt, st).

(** The records a dry housekeeping run writes for one plan. *)
Definition dry_records (w : World) (p : RepositoryPlan) : list record :=
  (INFO, MsgProcessingAt (plan_path p)) ::
  match is_dir w (plan_path p) with
  | Some true =>
      (INFO, MsgProcessingRepo (plan_path p))
      :: map describe (task_sequence p)
  | _ => [(WARNING, MsgNotADirectory (plan_path p))]
  end.

(** The tasks of the plans whose path is a directory in [w]. *)
Definition all_tasks (w : World) (plans : list RepositoryPlan)
    : list invocation :=
  flat_map (fun p => match is_dir w (plan_path p) with
                     | Some true => task_sequence p
                     | _ => []
                     end)
    plans.

(** [I] is a set of worlds that the commands [tasks] never leave, and in
    which each of them is accepted, started, and run to its end with
    output that is valid text.  The exit codes are free. *)
Definition completes (I : World -> Prop) (tasks : list invocation) : Prop :=
  forall w t, I w -> In t tasks ->
    exists rc out err w',
      spawn w (inv_cmd t) (inv_shell t) (inv_cwd t)
        = (Completed rc out err, w')
      /\ I w'.

(** In the worlds of [I] the directory test on the path of every plan
    returns. *)
Definition answers (I : World -> Prop) (plans : list RepositoryPlan)
    : Prop :=
  forall w p, I w -> In p plans -> is_dir w (plan_path p) <> None.

(** In the worlds of [I] the directory test on the path of every plan
    returns what it returns in [w0]: no repository directory is created
    or removed. *)
Definition steady (I : World -> Prop) (plans : list RepositoryPlan)
    (w0 : World) : Prop :=
  forall w p, I w -> In p plans ->
    is_dir w (plan_path p) = is_dir w0 (plan_path p).

(** The plan an entry with the fields [items] yields for the path [p]:
    the fields of the entry, or their defaults, go to every plan. *)
Definition entry_field (items : list (string * value)) (k : string)
    (default : value) : value :=
  match dict_get items k with
  | Some v => v
  | None => default
  end.

Definition entry_config (items : list (string * value)) (p : Path)
    : RepoConfig :=
  mkRepoConfig p
    (entry_field items "auto_pull" (VBool true))
    (entry_field items "auto_push" (VBool false))
    (entry_field items "clean" (VBool false))
    (entry_field items "update_submodules" (VBool false))
    (if truthy (entry_field items "commands" (VList []))
     then entry_field items "commands" (VList [])
     else VList []).

Definition entry_records (p : Path) : list record :=
  [(DEBUG, MsgAddingRepo p); (DEBUG, MsgInitRepoConfig p)].

(** The entries of a listing that the glob branch keeps; [None] when the
    [.git] test of an entry whose name matches raises. *)
Fixpoint kept (w : World) (pattern : string) (entries : list Path)
    : option (list Path) :=
  match entries with
  | [] => Some []
  | p :: rest =>
      if fnmatch (name p) pattern then
        match is_dir w (joinpath p ".git") with
        | None => None
        | Some g =>
            option_map (fun l => if g then p :: l else l)
              (kept w pattern rest)
        end
      else kept w pattern rest
  end.

(** The directory the glob branch lists, or the exception that finding it
    raises. *)
Definition search_root (w : World) (expanded : Path) : exn + Path :=
  match path_exists w (parent expanded) with
  | None => inl OSError
  | Some true => inr (parent expanded)
  | Some false =>
      match home with
      | Some h => inr h
      | None => inl RuntimeError
      end
  end.

(** The computation never leaves through [sys.exit]. *)
Definition no_exit {A} (c : M A) : Prop :=
  forall st code, fst (c st) <> Raise (SystemExit code).

(** The test of [_report_stale] on a repository whose last commit was
    made at [last]; [None] when the test for [.gitmodules] raises. *)
Definition classified_stale (w : World) (cutoff : Q) (last : Z)
    (r : RepoConfig) : option bool :=
  if Qltb (inject_Z last) cutoff then Some true
  else if truthy (update_submodules r) then
    path_exists w (joinpath (path r) ".gitmodules")
  else Some false.

Definition is_stale_record (r : record) : bool :=
  match snd r with
  | MsgStale _ _ => true
  | _ => false
  end.

Definition is_error (r : record) : bool :=
  match fst r with ERROR => true | _ => false end.
End Vocabulary.

(** ** Concrete runs *)

Module Scenario.
Import Posix.

Section Behaviour.
Variable b : value -> process.
Let P : Platform := platform b.

Definition r1 : @Path P := "/r1".
Definition r2 : @Path P := "/r2".

(** Two repositories; the first has every task enabled. *)
Definition full_plan : RepositoryPlan :=
  mkPlan r1 true true true true ["make"; "make test"].
Definition pull_only : RepositoryPlan :=
  mkPlan r2 true false false false [].
Definition two_repos : list RepositoryPlan := [full_plan; pull_only].

Definition disk : @World P :=
  mkFilesystem ["/r1"; "/r2"] [] [] (Loaded VNone) 0 [].

(** The same disk after [/r1] was removed. *)
Definition moved_disk : @World P :=
  mkFilesystem ["/r2"] [] [] (Loaded VNone) 0 [].

Definition engine (dry : bool) (stale : option Z) : GitAround :=
  mkGitAround (mkConfig (map to_config two_repos)) dry stale.

(** The state of a housekeeping run before the first plan, and after
    it has entered [/r1]. *)
Definition booted (w : @World P) : State :=
  logged (initial b w) [(INFO, MsgRunning)].
Definition entered_r1 : State :=
  logged (booted disk) [(INFO, MsgProcessingAt r1);
                        (INFO, MsgProcessingRepo r1)].
Definition skipped_r1 : State :=
  logged (booted moved_disk) [(INFO, MsgProcessingAt r1);
                              (WARNING, MsgNotADirectory r1)].

Definition pull_r1 : invocation := Invoke git_pull false r1.
Definition clean_r1 : invocation := Invoke git_clean false r1.
Definition pull_r2 : invocation := Invoke git_pull false r2.
Definition log_r1 : invocation := Invoke git_log false r1.
Definition log_r2 : invocation := Invoke git_log false r2.
End Behaviour.
Arguments booted b w : clear implicits.

(** Thirty days after second 0, with a [.gitmodules] file in [/r1]. *)
Definition day_30 (b : value -> process) : @World (platform b) :=
  mkFilesystem ["/r1"; "/r2"] ["/r1/.gitmodules"] [] (Loaded VNone)
    (inject_Z (30 * 86400)) [].

(** A tree with three candidates under [/srv]: [app] is a repository,
    [api] and [notes] are plain directories; the home directory holds the
    repository [alpha].  The configuration file [/cfg] holds [data]. *)
Definition srv (b : value -> process) (data : yaml_result)
    : @World (platform b) :=
  mkFilesystem
    ["/srv"; "/srv/app"; "/srv/app/.git"; "/srv/api"; "/srv/notes";
     "/home/user"; "/home/user/alpha"; "/home/user/alpha/.git"]
    ["/cfg"]
    [("/srv", ["/srv/app"; "/srv/api"; "/srv/notes"]);
     ("/home/user", ["/home/user/alpha"])]
    data 0 [].

(** [repos: [{path: <spec>}]] *)
Definition one_entry (spec : string) : value :=
  VDict [("repos", VList [VDict [("path", VStr spec)]])].

(** [repos: [{auto_pull: true}]], an entry without [path] *)
Definition pathless_entry : value :=
  VDict [("repos", VList [VDict [("auto_pull", VBool true)]])].

Definition cfg (b : value -> process) : @Path (platform b) := "/cfg".
Definition srv_notes (b : value -> process) : @Path (platform b) :=
  "/srv/notes".
Definition srv_app (b : value -> process) : @Path (platform b) :=
  "/srv/app".

(** [git log] answers with a commit made at second 0, and with one made
    1000 seconds before the end of day 30. *)
Definition at_0 : value -> process := prints (timestamp_line "0").
Definition at_2591000 : value -> process :=
  prints (timestamp_line "2591000").

(** [git log] answers with a commit made at second 1000. *)
Definition at_1000 : value -> process := prints (timestamp_line "1000").
End Scenario.

(** ** What a computation may touch, and what a configuration resolves to *)

Section Footprints.
Context `{Platform}.

(** Whatever the state it starts in, [c] only appends to the list of
    invocations and to the log; the invocations it adds satisfy [P] and
    the records it adds satisfy [Q]. *)
Definition footprint {A} (P : invocation -> Prop) (Q : record -> Prop)
    (c : M A) : Prop :=
  forall st, exists s l,
    spawned (snd (c st)) = spawned st ++ s /\ Forall P s
    /\ log (snd (c st)) = log st ++ l /\ Forall Q l.

(** [c] leaves the outside world as it found it. *)
Definition keeps_world {A} (c : M A) : Prop :=
  forall st, world (snd (c st)) = world st.

(** How the commands [s], started one after the other from the world
    [w], end, and the world they leave. *)
Fixpoint outcomes (w : World) (s : list invocation) : list completion :=
  match s with
  | [] => []
  | i :: rest =>
      fst (spawn w (inv_cmd i) (inv_shell i) (inv_cwd i))
      :: outcomes (snd (spawn w (inv_cmd i) (inv_shell i) (inv_cwd i))) rest
  end.

Fixpoint world_after (w : World) (s : list invocation) : World :=
  match s with
  | [] => w
  | i :: rest =>
      world_after (snd (spawn w (inv_cmd i) (inv_shell i) (inv_cwd i))) rest
  end.

Definition exits_zero (c : completion) : Prop :=
  exists out err, c = Completed 0 out err.

(** [c] only appends to the list of invocations and to the log, changes
    the world only through the commands it starts, and logs no ERROR
    record when each of them exits with code 0. *)
Definition traced {A} (c : M A) : Prop :=
  forall st, exists s l,
    spawned (snd (c st)) = spawned st ++ s
    /\ log (snd (c st)) = log st ++ l
    /\ world (snd (c st)) = world_after (world st) s
    /\ (Forall exits_zero (outcomes (world st) s) ->
        Forall (fun r => is_error r = false) l).

(** The tasks of any [RepoConfig] object, typed or not: a git task is
    enabled when its flag is truthy, and [cmds] are the elements the loop
    over [commands] visits. *)
Definition config_git_tasks (r : RepoConfig) : list invocation :=
  when (truthy (auto_pull r)) (Invoke git_pull false (path r))
  ++ when (truthy (clean r)) (Invoke git_clean false (path r))
  ++ when (truthy (update_submodules r))
       (Invoke git_submodule_update false (path r)).

Definition config_tasks (r : RepoConfig) (cmds : list value)
    : list invocation :=
  config_git_tasks r
  ++ map (fun c => Invoke c true (path r)) cmds
  ++ when (truthy (auto_push r)) (Invoke git_push false (path r)).

(** The paths a specifier denotes in [w], or the exception its
    resolution raises: tilde expansion fails, a file-system test raises,
    the directory to search cannot be listed. *)
Definition matched (w : World) (raw : string) : exn + list Path :=
  match expanduser (mkpath raw) with
  | None => inl RuntimeError
  | Some expanded =>
      if has_glob raw then
        match search_root w expanded with
        | inl e => inl e
        | inr base =>
            match iterdir w base with
            | None => inl OSError
            | Some entries =>
                match kept w (name expanded) entries with
                | None => inl OSError
                | Some l => inr (map (resolve w) l)
                end
            end
        end
      else
        match is_dir w expanded with
        | None => inl OSError
        | Some d => inr (if d then [resolve w expanded] else [])
        end
  end.

(** The plans of an entry that is a mapping, or the exception its
    resolution raises ([TypeError] when [path] is not a string). *)
Definition entry_plans (w : World) (items : list (string * value))
    : exn + list RepoConfig :=
  match dict_get items "path" with
  | Some (VStr raw) =>
      match matched w raw with
      | inl e => inl e
      | inr ps => inr (map (entry_config items) ps)
      end
  | _ => inl TypeError
  end.

(** The cutoff of a staleness scan of [days] days that starts in [st0],
    and the fact that the scan has gone through the plans [before]
    without an exception and now stands in [st]. *)
Definition scan_cutoff (days : Z) (st0 : State) : Q :=
  fst (time_time (world st0)) - inject_Z (days * 86400).

Definition scan_reaches (days : Z) (before : list RepoConfig)
    (st0 st : State) : Prop :=
  for_each before (_report_stale_body (scan_cutoff days st0))
    (mkState (snd (time_time (world st0)))
       (log st0 ++ [(INFO, MsgScanning days)]) (spawned st0))
  = (Return tt, st).

(** The records [load_from_file] writes while it adds [plans]. *)
Definition plan_records (plans : list RepoConfig) : list record :=
  flat_map (fun r => entry_records (path r)) plans.
End Footprints.

(** ** More concrete inputs *)

Module Cases.
Import Posix Scenario.

Section Behaviour.
Variable b : value -> process.
Let P : Platform := platform b.

(** A plan as an untyped configuration can give it: [auto_pull: "no"] (a
    non-empty string), [auto_push: 0], [clean: null],
    [update_submodules: [null]], [commands: "ls"]. *)
Definition quirky : @RepoConfig P :=
  mkRepoConfig (r1 b) (VStr "no") (VInt 0) VNone (VList [VNone])
    (VStr "ls").

(** [commands: ["ls", 5, "x"]] with push enabled and pull disabled. *)
Definition mixed : @RepoConfig P :=
  mkRepoConfig (r1 b) (VBool false) (VBool true) (VBool false)
    (VBool false) (VList [VStr "ls"; VInt 5; VStr "x"]).

(** [commands: 5] with pull and push enabled. *)
Definition broken : @RepoConfig P :=
  mkRepoConfig (r1 b) (VBool true) (VBool true) (VBool false)
    (VBool false) (VInt 5).

Definition engine_of (rs : list (@RepoConfig P)) (dry : bool)
    (stale : option Z) : @GitAround P :=
  mkGitAround (mkConfig rs) dry stale.

(** The state of a staleness scan of 30 days before the first plan. *)
Definition scanning (w : @World P) : @State P :=
  @mkState P w [(INFO, @MsgScanning P 30)] [].
End Behaviour.
Arguments scanning b w : clear implicits.
Arguments engine_of b rs dry stale : clear implicits.

(** Every command runs and exits with status 128, as [git log] does
    outside a repository. *)
Definition exits_128 (_ : value) : process :=
  Exited 128 "" "fatal: not a git repository".

(** [git log] prints something that is not a number. *)
Definition prints_head : value -> process := prints "HEAD".

(** [repos] with two glob entries that overlap on [/srv/app], the second
    with [auto_push] set. *)
Definition overlapping : value :=
  VDict [("repos",
          VList [VDict [("path", VStr "/srv/a*")];
                 VDict [("path", VStr "/srv/app");
                        ("auto_push", VBool true)]])].

(** [repos] whose second entry is a glob under a directory that does not
    exist, with a home directory that cannot be listed. *)
Definition homeless (b : value -> process) (data : yaml_result)
    : @World (platform b) :=
  mkFilesystem ["/srv"; "/srv/app"; "/srv/app/.git"] ["/cfg"]
    [("/srv", ["/srv/app"])] data 0 [].

Definition then_unlistable : value :=
  VDict [("repos",
          VList [VDict [("path", VStr "/srv/app")];
                 VDict [("path", VStr "/gone/a*")];
                 VDict [("path", VStr "/srv/app")]])].
End Cases.

(** * Properties *)

Unset Implicit Arguments.

(** ** Laws of the monad and of the loops *)

Section Laws.
Context `{Platform}.

Lemma bind_Return {A B} (c : M A) (k : A -> M B) st a st' :
  c st = (Return a, st') -> bind c k st = k a st'.
Proof. intros E. unfold bind. now rewrite E. Qed.

Lemma bind_Raise {A B} (c : M A) (k : A -> M B) st e st' :
  c st = (Raise e, st') -> bind c k st = (Raise e, st').
Proof. intros E. unfold bind. now rewrite E. Qed.

Lemma bind_assoc {A B C} (c : M A) (k : A -> M B) (k' : B -> M C) st :
  bind (bind c k) k' st = bind c (fun a => bind (k a) k') st.
Proof.
  unfold bind. destruct (c st) as [[a|e] st']; reflexivity.
Qed.

Lemma for_each_app {A} (l1 l2 : list A) (body : A -> M unit) st :
  for_each (l1 ++ l2) body st
  = (for_each l1 body ;; for_each l2 body) st.
Proof.
  revert st. induction l1 as [|x l1 IH]; intros st; simpl.
  - reflexivity.
  - rewrite bind_assoc.
    destruct (body x st) as [[[]|e] st'] eqn:E.
    + rewrite !(bind_Return _ _ _ _ _ E). apply IH.
    + now rewrite !(bind_Raise _ _ _ _ _ E).
Qed.

Lemma logged_logged st l1 l2 :
  logged (logged st l1) l2 = logged st (l1 ++ l2).
Proof. unfold logged. simpl. now rewrite <- app_assoc. Qed.

Lemma logged_nil st : logged st [] = st.
Proof. destruct st. unfold logged. simpl. now rewrite app_nil_r. Qed.

Lemma logging_eq lvl msg st :
  logging lvl msg st = (Return tt, logged st [(lvl, msg)]).
Proof. reflexivity. Qed.

(** A command whose arguments pass the checks of [subprocess] reaches the
    platform, and the call is recorded. *)
Lemma spawn_accepted w cmd shell cwd e :
  popen_error cmd shell = None ->
  fst (spawn w cmd shell cwd) <> Rejected e.
Proof.
  intros P. unfold spawn. rewrite P.
  destruct (execute w cmd shell cwd) as [[| |] w']; discriminate.
Qed.

Lemma start_accepted cmd shell cwd st :
  popen_error cmd shell = None ->
  start cmd shell cwd st
  = (Return (fst (spawn (world st) cmd shell cwd)),
     mkState (snd (spawn (world st) cmd shell cwd)) (log st)
       (spawned st ++ [Invoke cmd shell cwd])).
Proof.
  intros P. pose proof (spawn_accepted (world st) cmd shell cwd) as N.
  specialize (fun e => N e P). unfold start.
  destruct (spawn (world st) cmd shell cwd) as [[e| | |] w];
    try reflexivity.
  now elim (N e).
Qed.

Lemma start_rejected cmd shell cwd st e :
  popen_error cmd shell = Some e ->
  start cmd shell cwd st = (Return (Rejected e), st).
Proof. intros P. unfold start, spawn. now rewrite P. Qed.
End Laws.

(** ** The command runner on a list of tasks *)

Section Runner.
Context `{Platform}.

Lemma bind_ext {A B} (c c' : M A) (k k' : A -> M B) :
  (forall st, c st = c' st) ->
  (forall a st, k a st = k' a st) ->
  forall st, bind c k st = bind c' k' st.
Proof.
  intros Hc Hk st. unfold bind. rewrite Hc.
  destruct (c' st) as [[a|e] st']; [apply Hk | reflexivity].
Qed.

Lemma bind_ret_r (c : M unit) st : (c ;; ret tt) st = c st.
Proof.
  unfold bind, ret. destruct (c st) as [[[]|e] st']; reflexivity.
Qed.

Lemma for_each_map {A B} (f : A -> B) (l : list A) (body : B -> M unit)
    (body' : A -> M unit) :
  (forall a st, body (f a) st = body' a st) ->
  forall st, for_each (map f l) body st = for_each l body' st.
Proof.
  intros E. induction l as [|a l IH]; intros st; simpl.
  - reflexivity.
  - apply bind_ext; [apply E | intros _; apply IH].
Qed.

Lemma invocation_eta (t : invocation) :
  Invoke (inv_cmd t) (inv_shell t) (inv_cwd t) = t.
Proof. now destruct t. Qed.

(** In a dry run a task is described and nothing else happens. *)
Lemma run_task_dry self t st :
  dry_run self = true ->
  run_task self t st = (Return tt, logged st [describe t]).
Proof.
  intros D. unfold run_task, _run_command. rewrite D. reflexivity.
Qed.

Lemma tasks_dry self l st :
  dry_run self = true ->
  for_each l (run_task self) st = (Return tt, logged st (map describe l)).
Proof.
  intros D. revert st. induction l as [|t l IH]; intros st; simpl.
  - now rewrite logged_nil.
  - rewrite (bind_Return _ _ _ _ _ (run_task_dry self t st D)), IH.
    now rewrite logged_logged.
Qed.

(** What a live run of one task does, by the way the process ends. *)
Lemma run_task_live self t st :
  dry_run self = false ->
  run_task self t st =
    let desc := if inv_shell t then "shell" else "git" in
    let executing := (INFO, MsgExecuting desc (inv_cmd t) (inv_cwd t)) in
    let (r, w) := spawn (world st) (inv_cmd t) (inv_shell t) (inv_cwd t) in
    match r with
    | Rejected e =>
        (Raise e, mkState (world st) (log st ++ [executing]) (spawned st))
    | LaunchError =>
        (Raise OSError,
         mkState w (log st ++ [executing]) (spawned st ++ [t]))
    | Garbled _ =>
        (Raise UnicodeDecodeError,
         mkState w (log st ++ [executing]) (spawned st ++ [t]))
    | Completed rc out err =>
        (Return tt,
         mkState w
           (log st ++ executing ::
              if negb (rc =? 0)%Z
              then [(ERROR, MsgCommandFailed desc (inv_cmd t));
                    (ERROR, MsgOutput err)]
              else [(DEBUG, MsgOutput out)])
           (spawned st ++ [t]))
    end.
Proof.
  intros D. unfold run_task, _run_command. rewrite D.
  unfold bind, logging, start, raise. cbn [world log spawned].
  rewrite invocation_eta.
  destruct (spawn _ _ _ _) as [[e| |rc out err|rc] w]; cbn;
    try reflexivity.
  destruct (rc =? 0)%Z; cbn; now rewrite <- !app_assoc.
Qed.

(** A live task is recorded, unless its arguments are rejected, and then
    it raises. *)
Lemma run_task_spawned self t st :
  dry_run self = false ->
  spawned (snd (run_task self t st)) = spawned st ++ [t]
  \/ (spawned (snd (run_task self t st)) = spawned st
      /\ fst (run_task self t st) <> Return tt).
Proof.
  intros D. rewrite (run_task_live self t st D). cbv zeta.
  destruct (spawn _ _ _ _) as [[e| |rc out err|rc] w];
    try (left; reflexivity).
  right. split; [reflexivity | discriminate].
Qed.

(** A live run invokes the tasks of a list in order and stops at the
    first one that raises. *)
Lemma tasks_live_prefix self l st :
  dry_run self = false ->
  let r := for_each l (run_task self) st in
  (exists n, spawned (snd r) = spawned st ++ firstn n l)
  /\ (fst r = Return tt -> spawned (snd r) = spawned st ++ l).
Proof.
  intros D. revert st. induction l as [|t l IH]; intros st; cbn zeta.
  - simpl. split; [exists 0%nat|intros _]; now rewrite app_nil_r.
  - simpl for_each.
    pose proof (run_task_spawned self t st D) as S.
    destruct (run_task self t st) as [[[]|e] st'] eqn:E; simpl in S.
    + destruct S as [S|[_ N]]; [|now elim N].
      rewrite (bind_Return _ _ _ _ _ E).
      destruct (IH st') as [[n Hn] Hall]. rewrite S in Hn, Hall. split.
      * exists (Datatypes.S n). rewrite Hn. simpl.
        now rewrite <- app_assoc.
      * intros R. rewrite (Hall R). now rewrite <- app_assoc.
    + rewrite (bind_Raise _ _ _ _ _ E). simpl. split.
      * destruct S as [S|[S _]].
        -- exists 1%nat. rewrite S. simpl. now destruct l.
        -- exists 0%nat. rewrite S. simpl. now rewrite app_nil_r.
      * discriminate.
Qed.

(** Where every task is accepted, started and run to its end, the whole
    list is run, whatever the exit codes. *)
Lemma tasks_live_complete self l st I :
  completes I l -> I (world st) ->
  fst (for_each l (run_task self) st) = Return tt
  /\ I (world (snd (for_each l (run_task self) st))).
Proof.
  revert st. induction l as [|t l IH]; intros st C W; simpl.
  - now split.
  - assert (completes I l) as C'.
    { intros w u Iw Iu. apply C; [exact Iw | now right]. }
    destruct (dry_run self) eqn:D.
    + rewrite (bind_Return _ _ _ _ _ (run_task_dry self t st D)).
      now apply IH.
    + destruct (C (world st) t W (or_introl eq_refl))
        as (rc & out & err & w' & Sp & W').
      pose proof (run_task_live self t st D) as E. cbv zeta in E.
      rewrite Sp in E. rewrite (bind_Return _ _ _ _ _ E).
      now apply IH.
Qed.

(** [_process_repo] on a plan is the command runner applied to the task
    sequence of the plan. *)
Lemma process_repo_refines self p st :
  _process_repo self (to_config p) st
  = (logging INFO (MsgProcessingRepo (plan_path p)) ;;
     for_each (task_sequence p) (run_task self)) st.
Proof.
  unfold _process_repo, task_sequence.
  apply bind_ext; [reflexivity | intros _ st1].
  rewrite !app_assoc, <- (app_assoc _ (map _ _)), <- (app_assoc (when _ _)).
  rewrite for_each_app.
  apply bind_ext.
  - intros st2. unfold to_config. cbn [auto_pull clean update_submodules path].
    destruct (autoPull p), (plan_clean p), (updateSubmodules p);
      reflexivity.
  - intros _ st2. unfold to_config at 1. cbn [commands py_iter lift].
    change (bind (ret ?l) ?k st2) with (k l st2). cbv beta.
    rewrite for_each_app. apply bind_ext.
    + intros st3.
      rewrite (for_each_map VStr _ _
                 (fun c => run_task self
                             (Invoke (VStr c) true (plan_path p))))
        by reflexivity.
      symmetry. apply for_each_map. reflexivity.
    + intros _ st3. unfold to_config. cbn [auto_push path truthy].
      destruct (autoPush p); simpl; [|reflexivity].
      symmetry. apply bind_ret_r.
Qed.
End Runner.

(** ** The housekeeping loop *)

Section Housekeeping.
Context `{Platform}.

Lemma run_housekeeping self st :
  stale_days self = None ->
  run self st
  = for_each (repos (config self)) (run_body self)
      (logged st [(INFO, MsgRunning)]).
Proof. intros S. unfold run. now rewrite S. Qed.

Lemma run_body_skip self r st :
  is_dir (world st) (path r) = Some false ->
  run_body self r st
  = (Return tt, logged st [(INFO, MsgProcessingAt (path r));
                           (WARNING, MsgNotADirectory (path r))]).
Proof.
  intros D. unfold run_body, bind, logging, ask_or. cbn [world].
  rewrite D. cbn. unfold logged. cbn. now rewrite <- app_assoc.
Qed.

Lemma run_body_dir self r st :
  is_dir (world st) (path r) = Some true ->
  run_body self r st
  = _process_repo self r (logged st [(INFO, MsgProcessingAt (path r))]).
Proof.
  intros D. unfold run_body, bind, logging, ask_or. cbn [world].
  rewrite D. reflexivity.
Qed.

(** The directory test itself can raise. *)
Lemma run_body_locked self r st :
  is_dir (world st) (path r) = None ->
  run_body self r st
  = (Raise OSError, logged st [(INFO, MsgProcessingAt (path r))]).
Proof.
  intros D. unfold run_body, bind, logging, ask_or. cbn [world].
  rewrite D. reflexivity.
Qed.

Lemma run_body_plan self p st :
  is_dir (world st) (plan_path p) = Some true ->
  run_body self (to_config p) st
  = for_each (task_sequence p) (run_task self)
      (logged st [(INFO, MsgProcessingAt (plan_path p));
                  (INFO, MsgProcessingRepo (plan_path p))]).
Proof.
  intros D. rewrite run_body_dir by exact D.
  rewrite process_repo_refines. unfold bind. rewrite logging_eq.
  now rewrite logged_logged.
Qed.

(** The rest of a run that has reached a task. *)
Lemma run_resume self before p after done todo st0 st :
  stale_days self = None ->
  repos (config self) = map to_config (before ++ p :: after) ->
  task_sequence p = done ++ todo ->
  reaches self before p done st0 st ->
  run self st0
  = (for_each todo (run_task self) ;;
     for_each (map to_config after) (run_body self)) st.
Proof.
  intros S R T (st1 & B & D & E).
  rewrite run_housekeeping, R, map_app, for_each_app by exact S.
  rewrite (bind_Return _ _ _ _ _ B). simpl.
  unfold bind at 1. rewrite run_body_plan, T, for_each_app by exact D.
  rewrite (bind_Return _ _ _ _ _ E). reflexivity.
Qed.

Lemma completes_app I a b :
  completes I (a ++ b) -> completes I a /\ completes I b.
Proof.
  intros C. split; intros w t Iw It; apply C; auto; apply in_or_app; auto.
Qed.

Lemma answers_tail I p plans : answers I (p :: plans) -> answers I plans.
Proof. intros A w q Iw Iq. apply A; [exact Iw | now right]. Qed.

Lemma steady_tail I p plans w0 :
  steady I (p :: plans) w0 -> steady I plans w0.
Proof. intros A w q Iw Iq. apply A; [exact Iw | now right]. Qed.


(** Where moreover the directory tests keep answering as in [w0], the
    live loop invokes every task of every plan that is a directory. *)
Lemma live_run_loop self plans st I w0 :
  dry_run self = false ->
  completes I (flat_map task_sequence plans) -> answers I plans ->
  steady I plans w0 -> I (world st) ->
  spawned (snd (for_each (map to_config plans) (run_body self) st))
  = spawned st ++ all_tasks w0 plans.
Proof.
  intros D. revert st.
  induction plans as [|p plans IH]; intros st C A S W; simpl.
  - now rewrite app_nil_r.
  - simpl in C. apply completes_app in C. destruct C as [Cp Cr].
    pose proof (S (world st) p W (or_introl eq_refl)) as Sp.
    assert (fst (run_body self (to_config p) st) = Return tt
            /\ I (world (snd (run_body self (to_config p) st)))
            /\ spawned (snd (run_body self (to_config p) st))
               = spawned st ++ match is_dir w0 (plan_path p) with
                               | Some true => task_sequence p
                               | _ => []
                               end) as (R & W' & Sq).
    { destruct (is_dir (world st) (plan_path p)) as [[|]|] eqn:Dir.
      - rewrite run_body_plan by exact Dir. rewrite <- Sp.
        set (st' := logged st _).
        destruct (tasks_live_complete self (task_sequence p) st' I Cp W)
          as [R' W''].
        repeat split; [exact R' | exact W'' |].
        apply (proj2 (tasks_live_prefix self (task_sequence p) st' D)).
        exact R'.
      - rewrite run_body_skip by exact Dir. rewrite <- Sp. simpl.
        rewrite app_nil_r. now repeat split.
      - elim (A (world st) p W (or_introl eq_refl) Dir). }
    destruct (run_body self (to_config p) st) as [[[]|e] st'] eqn:E;
      simpl in R, W', Sq; [|discriminate].
    rewrite (bind_Return _ _ _ _ _ E).
    rewrite (IH st' Cr (answers_tail _ _ _ A) (steady_tail _ _ _ _ S) W').
    rewrite Sq, <- app_assoc. reflexivity.
Qed.
End Housekeeping.

(** ** Task order, failure isolation, skipped paths *)

Section HousekeepingClaims.
Context `{Platform}.



(** C3, as the code has it.  In a live housekeeping run that has reached
    task [t] of plan [p]: if the command of [t] cannot be started, the
    [OSError] leaves [_run_command], [_process_repo] and [run]; nothing
    is logged after the "Executing" record, and neither the remaining
    tasks of [p] nor the later plans are processed. *)
Theorem launch_failure_aborts self before p after done t todo st0 st w :
  dry_run self = false ->
  stale_days self = None ->
  repos (config self) = map to_config (before ++ p :: after) ->
  task_sequence p = done ++ t :: todo ->
  reaches self before p done st0 st ->
  spawn (world st) (inv_cmd t) (inv_shell t) (inv_cwd t)
    = (LaunchError, w) ->
  run self st0
  = (Raise OSError,
     mkState w
       (log st ++ [(INFO, MsgExecuting (if inv_shell t then "shell"
                                        else "git")
                            (inv_cmd t) (inv_cwd t))])
       (spawned st ++ [t])).
Proof.
  intros L S R T Rch Sp.
  rewrite (run_resume self before p after done (t :: todo) st0 st S R T Rch).
  simpl for_each. rewrite bind_assoc.
  apply bind_Raise. rewrite run_task_live by exact L.
  cbv zeta. now rewrite Sp.
Qed.

(** C8.  In housekeeping mode, when the loop comes to a plan whose path
    is not a directory, it logs a warning, starts no process, raises
    nothing, and goes on with the plans that follow. *)
Theorem missing_path_skipped self before r after st0 st1 :
  stale_days self = None ->
  repos (config self) = before ++ r :: after ->
  for_each before (run_body self) (logged st0 [(INFO, MsgRunning)])
    = (Return tt, st1) ->
  is_dir (world st1) (path r) = Some false ->
  let st2 := logged st1 [(INFO, MsgProcessingAt (path r));
                         (WARNING, MsgNotADirectory (path r))] in
  run_body self r st1 = (Return tt, st2)
  /\ spawned st2 = spawned st1
  /\ world st2 = world st1
  /\ run self st0 = for_each after (run_body self) st2.
Proof.
  intros S R B D st2.
  pose proof (run_body_skip self r st1 D) as E. fold st2 in E.
  repeat split; [exact E|].
  rewrite run_housekeeping, R, for_each_app by exact S.
  rewrite (bind_Return _ _ _ _ _ B). simpl.
  now rewrite (bind_Return _ _ _ _ _ E).
Qed.
End HousekeepingClaims.

(** ** The housekeeping claims on concrete runs *)

Import Posix Scenario.




Lemma launch_failure_aborts_witness :
  fst (run (engine no_git false None) (initial no_git (disk no_git)))
  = Raise OSError.
Proof.
  rewrite (launch_failure_aborts (engine no_git false None)
             [] (full_plan no_git) [pull_only no_git]
             [] (pull_r1 no_git)
             (tl (task_sequence (full_plan no_git)))
             (initial no_git (disk no_git)) (entered_r1 no_git)
             (disk no_git) eq_refl eq_refl eq_refl eq_refl).
  - reflexivity.
  - exists (booted no_git (disk no_git)). repeat split.
  - reflexivity.
Defined.

(** C3 fails on the code.  [git] cannot be started: the first task of the
    first repository raises, the run ends with the exception, no failure
    is reported, [git clean] of the same repository is never tried and
    the second repository is never processed. *)
Lemma launch_failure_not_isolated :
  fst (run (engine no_git false None) (initial no_git (disk no_git)))
  = Raise OSError
  /\ spawned (snd (run (engine no_git false None)
                     (initial no_git (disk no_git))))
     = [pull_r1 no_git]
  /\ ~ In (clean_r1 no_git)
         (spawned (snd (run (engine no_git false None)
                          (initial no_git (disk no_git)))))
  /\ ~ In (pull_r2 no_git)
         (spawned (snd (run (engine no_git false None)
                          (initial no_git (disk no_git)))))
  /\ filter is_error
       (log (snd (run (engine no_git false None)
                    (initial no_git (disk no_git))))) = [].
Proof.
  repeat split; try reflexivity; intros [E|[]]; discriminate E.
Qed.

Lemma missing_path_skipped_witness :
  is_dir (world (booted all_ok (moved_disk all_ok))) (r1 all_ok)
  = Some false
  /\ run (engine all_ok false None) (initial all_ok (moved_disk all_ok))
     = for_each [to_config (pull_only all_ok)]
         (run_body (engine all_ok false None)) (skipped_r1 all_ok).
Proof.
  split; [reflexivity|].
  apply (missing_path_skipped (engine all_ok false None)
           [] (to_config (full_plan all_ok)) [to_config (pull_only all_ok)]
           (initial all_ok (moved_disk all_ok))
           (booted all_ok (moved_disk all_ok))
           eq_refl eq_refl eq_refl eq_refl).
Defined.

(** ** Dry runs *)

Section DryRun.
Context `{Platform}.

Lemma dry_run_loop self plans st :
  dry_run self = true ->
  (forall p, In p plans -> is_dir (world st) (plan_path p) <> None) ->
  for_each (map to_config plans) (run_body self) st
  = (Return tt, logged st (flat_map (dry_records (world st)) plans)).
Proof.
  intros D. revert st. induction plans as [|p plans IH]; intros st A; simpl.
  - now rewrite logged_nil.
  - assert (run_body self (to_config p) st
            = (Return tt, logged st (dry_records (world st) p))) as E.
    { unfold dry_records.
      destruct (is_dir (world st) (plan_path p)) as [[|]|] eqn:Dir.
      - rewrite run_body_plan, tasks_dry, logged_logged by assumption.
        reflexivity.
      - now rewrite run_body_skip by exact Dir.
      - elim (A p (or_introl eq_refl) Dir). }
    rewrite (bind_Return _ _ _ _ _ E), IH, logged_logged; [reflexivity|].
    intros q Iq. apply A. now right.
Qed.

(** A dry loop starts nothing and leaves the world alone, also when a
    directory test raises. *)
Lemma dry_run_loop_touches self plans st :
  dry_run self = true ->
  spawned (snd (for_each (map to_config plans) (run_body self) st))
  = spawned st
  /\ world (snd (for_each (map to_config plans) (run_body self) st))
     = world st.
Proof.
  intros D. revert st. induction plans as [|p plans IH]; intros st; simpl.
  - now split.
  - destruct (is_dir (world st) (plan_path p)) as [[|]|] eqn:Dir.
    + assert (run_body self (to_config p) st
              = (Return tt,
                 logged st ([(INFO, MsgProcessingAt (plan_path p));
                             (INFO, MsgProcessingRepo (plan_path p))]
                            ++ map describe (task_sequence p)))) as E.
      { rewrite run_body_plan, tasks_dry, logged_logged by assumption.
        reflexivity. }
      rewrite (bind_Return _ _ _ _ _ E). exact (IH (logged st _)).
    + rewrite (bind_Return _ _ _ _ _
                 (run_body_skip self (to_config p) st Dir)).
      exact (IH (logged st _)).
    + rewrite (bind_Raise _ _ _ _ _
                 (run_body_locked self (to_config p) st Dir)).
      now split.
Qed.

Lemma descriptions_of_dry_records w plans :
  filter is_description (flat_map (dry_records w) plans)
  = map describe (all_tasks w plans).
Proof.
  assert (forall l, filter is_description (map describe l) = map describe l)
    as F.
  { induction l as [|t l IH]; simpl; [reflexivity | now rewrite IH]. }
  induction plans as [|p plans IH]; simpl; [reflexivity|].
  rewrite filter_app, map_app, IH. f_equal.
  unfold dry_records. destruct (is_dir w (plan_path p)) as [[|]|]; simpl.
  - apply F.
  - reflexivity.
  - reflexivity.
Qed.

Lemma report_stale_unfold self days st :
  stale_days self = Some days ->
  run self st
  = for_each (repos (config self))
      (_report_stale_body
         (fst (time_time (world st)) - inject_Z (days * 86400)))
      (mkState (snd (time_time (world st)))
         (log st ++ [(INFO, MsgScanning days)]) (spawned st)).
Proof.
  intros S. unfold run, _report_stale. rewrite S.
  unfold bind, logging, now. cbn [world log spawned].
  destruct (time_time (world st)) as [t0 w0]. reflexivity.
Qed.

(** The staleness scan starts [git log] in every plan that is a
    directory, whatever the dry-run flag and however the query ends. *)
Lemma report_stale_body_spawns cutoff r st :
  is_dir (world st) (path r) = Some true ->
  spawned (snd (_report_stale_body cutoff r st))
  = spawned st ++ [Invoke git_log false (path r)].
Proof.
  intros D. unfold _report_stale_body, bind, ask_or. rewrite D. cbn [negb].
  unfold except_CalledProcessError, check_output, bind.
  rewrite (start_accepted git_log false (path r) st eq_refl).
  destruct (spawn _ _ _ _) as [[e| |rc out err|rc] w]; cbn;
    try reflexivity; [now destruct e|].
  destruct (rc =? 0)%Z; cbn; [|reflexivity].
  destruct (py_int (strip out)) as [last|]; cbn; [|reflexivity].
  unfold now. cbn. destruct (time_time w) as [t w']. cbn.
  destruct (Qltb (inject_Z last) cutoff); cbn; [reflexivity|].
  destruct (truthy (update_submodules r)); cbn; [|reflexivity].
  unfold ask_or. cbn.
  destruct (path_exists w' _) as [[|]|]; reflexivity.
Qed.

Lemma report_stale_body_appends cutoff r st :
  exists s, spawned (snd (_report_stale_body cutoff r st)) = spawned st ++ s.
Proof.
  destruct (is_dir (world st) (path r)) as [[|]|] eqn:D.
  - eexists. now apply report_stale_body_spawns.
  - exists []. unfold _report_stale_body, bind, ask_or. rewrite D.
    simpl. now rewrite app_nil_r.
  - exists []. unfold _report_stale_body, bind, ask_or. rewrite D.
    simpl. now rewrite app_nil_r.
Qed.

Lemma stale_loop_appends cutoff rs st :
  exists s,
    spawned (snd (for_each rs (_report_stale_body cutoff) st))
    = spawned st ++ s.
Proof.
  revert st. induction rs as [|r rs IH]; intros st; simpl.
  - exists []. now rewrite app_nil_r.
  - destruct (report_stale_body_appends cutoff r st) as [s1 E1].
    unfold bind.
    destruct (_report_stale_body cutoff r st) as [[[]|e] st'];
      simpl in E1.
    + destruct (IH st') as [s2 E2]. exists (s1 ++ s2).
      now rewrite E2, E1, app_assoc.
    + now exists s1.
Qed.

(** C2, as the code has it.  In housekeeping mode a dry run starts no
    process and leaves the world alone; where the directory test of every
    plan returns, it writes one description for every task of every plan
    that is a directory, in the order in which a live run invokes them
    when each command is accepted, started and run to its end with output
    that is valid text, and the directory tests keep their answers.  In
    staleness mode the flag is not consulted: the scan is the same
    computation with and without it, and it starts [git log] in every
    plan it comes to whose path is a directory. *)
Theorem dry_run_housekeeping_only plans days st :
  let cfg := mkConfig (map to_config plans) in
  let records :=
    (INFO, MsgRunning) :: flat_map (dry_records (world st)) plans in
  (spawned (snd (run (mkGitAround cfg true None) st)) = spawned st
   /\ world (snd (run (mkGitAround cfg true None) st)) = world st)
  /\ ((forall p, In p plans -> is_dir (world st) (plan_path p) <> None) ->
      run (mkGitAround cfg true None) st = (Return tt, logged st records))
  /\ filter is_description records = map describe (all_tasks (world st) plans)
  /\ (forall I, I (world st) ->
      completes I (flat_map task_sequence plans) ->
      answers I plans -> steady I plans (world st) ->
      spawned (snd (run (mkGitAround cfg false None) st))
      = spawned st ++ all_tasks (world st) plans)
  /\ run (mkGitAround cfg true (Some days)) st
     = run (mkGitAround cfg false (Some days)) st
  /\ (forall before p after st1,
        plans = before ++ p :: after ->
        scan_reaches days (map to_config before) st st1 ->
        is_dir (world st1) (plan_path p) = Some true ->
        exists rest,
          spawned (snd (run (mkGitAround cfg true (Some days)) st))
          = spawned st1 ++ Invoke git_log false (plan_path p) :: rest).
Proof.
  cbv zeta. split; [|split; [|split; [|split; [|split]]]].
  - rewrite run_housekeeping by reflexivity. cbn [config repos].
    apply (dry_run_loop_touches _ plans (logged st [(INFO, MsgRunning)])).
    reflexivity.
  - intros A. rewrite run_housekeeping by reflexivity. cbn [config repos].
    rewrite dry_run_loop by (try reflexivity; exact A).
    now rewrite logged_logged.
  - cbn [filter is_description snd]. apply descriptions_of_dry_records.
  - intros I W C A K. rewrite run_housekeeping by reflexivity.
    cbn [config repos].
    now rewrite (live_run_loop _ plans _ I (world st)).
  - reflexivity.
  - intros before p after st1 E B D.
    rewrite report_stale_unfold with (days := days) by reflexivity.
    cbn [config repos]. rewrite E, map_app, for_each_app.
    unfold scan_reaches, scan_cutoff in B.
    rewrite (bind_Return _ _ _ _ _ B). simpl. unfold bind.
    pose proof (report_stale_body_spawns
                  (fst (time_time (world st)) - inject_Z (days * 86400))
                  (to_config p) st1 D) as S.
    destruct (_report_stale_body _ (to_config p) st1) as [[[]|e] st2];
      simpl in S.
    + destruct (stale_loop_appends
                  (fst (time_time (world st)) - inject_Z (days * 86400))
                  (map to_config after) st2) as [s Es].
      exists s. now rewrite Es, S, <- app_assoc.
    + exists []. exact S.
Qed.
End DryRun.

Lemma dry_run_housekeeping_only_witness :
  spawned (snd (run (engine all_fail false None)
                  (initial all_fail (disk all_fail))))
  = all_tasks (disk all_fail) (two_repos all_fail).
Proof.
  destruct (dry_run_housekeeping_only (two_repos all_fail) 30
              (initial all_fail (disk all_fail))) as (_ & _ & _ & L & _).
  apply (L (eq (disk all_fail))); [reflexivity | | |].
  - intros w t <- It. exists 1%Z, "", "fatal", (disk all_fail).
    simpl in It. now repeat (destruct It as [<-|It]; [now split|]).
  - intros w q <- Iq. simpl in Iq.
    now repeat (destruct Iq as [<-|Iq]; [discriminate|]).
  - intros w q <- _. reflexivity.
Defined.

(** C2 fails on the code in staleness mode: with the dry-run flag set,
    [git log] is started in both repositories. *)
Lemma dry_run_stale_spawns :
  dry_run (engine at_1000 true (Some 30%Z)) = true
  /\ spawned (snd (run (engine at_1000 true (Some 30%Z))
                     (initial at_1000 (disk at_1000))))
     = [log_r1 at_1000; log_r2 at_1000].
Proof. split; reflexivity. Qed.

(** ** The staleness scan *)

Section Staleness.
Context `{Platform}.

Lemma Qltb_lt x y : Qltb x y = true <-> (x < y)%Q.
Proof.
  unfold Qltb. rewrite negb_true_iff, <- not_true_iff_false, Qle_bool_iff.
  split; [apply Qnot_le_lt | apply Qlt_not_le].
Qed.

Lemma Qltb_ge x y : Qltb x y = false <-> (y <= x)%Q.
Proof.
  unfold Qltb. rewrite negb_false_iff. apply Qle_bool_iff.
Qed.

(** One turn of the scan in which the query succeeds. *)
Lemma report_stale_body_ok cutoff r st out err w2 last :
  is_dir (world st) (path r) = Some true ->
  spawn (world st) git_log false (path r) = (Completed 0 out err, w2) ->
  py_int (strip out) = Some last ->
  _report_stale_body cutoff r st
  = match classified_stale (snd (time_time w2)) cutoff last r with
    | Some flagged =>
        (Return tt,
         mkState (snd (time_time w2))
           (log st ++
            if flagged
            then [(INFO, MsgStale (path r)
                           ((fst (time_time w2) - inject_Z last) / 86400))]
            else [])
           (spawned st ++ [Invoke git_log false (path r)]))
    | None =>
        (Raise OSError,
         mkState (snd (time_time w2)) (log st)
           (spawned st ++ [Invoke git_log false (path r)]))
    end.
Proof.
  intros D S I. unfold _report_stale_body, bind, ask_or. rewrite D.
  cbn [negb].
  unfold except_CalledProcessError, check_output, bind.
  rewrite (start_accepted git_log false (path r) st eq_refl), S.
  cbn. rewrite I. cbn. unfold now. cbn.
  unfold classified_stale.
  destruct (time_time w2) as [t w3]. cbn.
  destruct (Qltb (inject_Z last) cutoff); cbn; [reflexivity|].
  destruct (truthy (update_submodules r)); cbn.
  - destruct (path_exists w3 _) as [[|]|]; cbn; try reflexivity.
    now rewrite app_nil_r.
  - now rewrite app_nil_r.
Qed.

Lemma report_stale_body_log cutoff r st :
  exists l, log (snd (_report_stale_body cutoff r st)) = log st ++ l.
Proof.
  unfold _report_stale_body, bind, ask_or.
  destruct (is_dir (world st) (path r)) as [[|]|]; cbn [negb];
    try (exists []; simpl; now rewrite app_nil_r).
  unfold except_CalledProcessError, check_output, bind.
  rewrite (start_accepted git_log false (path r) st eq_refl).
  destruct (spawn _ _ _ _) as [[e| |rc out err|rc] w]; cbn;
    try (exists []; now rewrite app_nil_r).
  - destruct e; cbn; try (exists []; now rewrite app_nil_r).
    eexists; reflexivity.
  - destruct (rc =? 0)%Z; cbn; [|eexists; reflexivity].
    destruct (py_int (strip out)) as [last|]; cbn;
      [|exists []; now rewrite app_nil_r].
    unfold now. cbn. destruct (time_time w) as [t w']. cbn.
    destruct (Qltb (inject_Z last) cutoff); cbn; [eexists; reflexivity|].
    destruct (truthy (update_submodules r)); cbn;
      [|exists []; now rewrite app_nil_r].
    destruct (path_exists w' _) as [[|]|]; cbn;
      [eexists; reflexivity | exists []; now rewrite app_nil_r
      | exists []; now rewrite app_nil_r].
Qed.

Lemma stale_loop_log cutoff rs st :
  exists l,
    log (snd (for_each rs (_report_stale_body cutoff) st)) = log st ++ l.
Proof.
  revert st. induction rs as [|r rs IH]; intros st; simpl.
  - exists []. now rewrite app_nil_r.
  - destruct (report_stale_body_log cutoff r st) as [l1 E1].
    unfold bind.
    destruct (_report_stale_body cutoff r st) as [[[]|e] st'];
      simpl in E1.
    + destruct (IH st') as [l2 E2]. exists (l1 ++ l2).
      now rewrite E2, E1, app_assoc.
    + now exists l1.
Qed.

(** C6.  In a staleness scan that comes to a plan whose path is a
    directory and whose last-commit query succeeds: if the plan has
    [update_submodules] enabled and a [.gitmodules] file exists at its
    path, the plan is reported stale, whatever the time [last] of its last
    commit, and the report stays in the log of the whole run. *)
Theorem submodules_always_stale self days before r after st0 st
    out err w2 last :
  stale_days self = Some days ->
  repos (config self) = before ++ r :: after ->
  for_each before
    (_report_stale_body
       (fst (time_time (world st0)) - inject_Z (days * 86400)))
    (mkState (snd (time_time (world st0)))
       (log st0 ++ [(INFO, MsgScanning days)]) (spawned st0))
    = (Return tt, st) ->
  is_dir (world st) (path r) = Some true ->
  spawn (world st) git_log false (path r) = (Completed 0 out err, w2) ->
  py_int (strip out) = Some last ->
  truthy (update_submodules r) = true ->
  path_exists (snd (time_time w2)) (joinpath (path r) ".gitmodules")
  = Some true ->
  In (INFO, MsgStale (path r)
              ((fst (time_time w2) - inject_Z last) / 86400))
     (log (snd (run self st0))).
Proof.
  intros S R B D Sp I U G.
  rewrite report_stale_unfold with (days := days) by exact S.
  rewrite R, for_each_app, (bind_Return _ _ _ _ _ B). simpl.
  pose proof (report_stale_body_ok
                (fst (time_time (world st0)) - inject_Z (days * 86400))
                r st out err w2 last D Sp I) as E.
  assert (classified_stale (snd (time_time w2))
            (fst (time_time (world st0)) - inject_Z (days * 86400)) last r
          = Some true) as C.
  { unfold classified_stale. rewrite U, G. now destruct (Qltb _ _). }
  rewrite C in E. rewrite (bind_Return _ _ _ _ _ E).
  match goal with
  | |- In _ (log (snd (for_each _ _ ?s))) =>
      destruct (stale_loop_log
                  (fst (time_time (world st0)) - inject_Z (days * 86400))
                  after s) as [l El]
  end.
  rewrite El. cbn [log]. apply in_or_app. left. apply in_or_app. right.
  now left.
Qed.

(** On age alone a repository is flagged exactly when its last commit is
    strictly older than the threshold; at the boundary it is not. *)
Lemma stale_on_age w cutoff last r :
  truthy (update_submodules r) = false ->
  (classified_stale w cutoff last r = Some true
   <-> (inject_Z last < cutoff)%Q)
  /\ ((inject_Z last == cutoff)%Q ->
      classified_stale w cutoff last r = Some false).
Proof.
  intros U. unfold classified_stale. rewrite U. split.
  - rewrite <- Qltb_lt. destruct (Qltb _ _); split; congruence.
  - intros E. assert (Qltb (inject_Z last) cutoff = false) as F.
    { apply Qltb_ge. rewrite E. apply Qle_refl. }
    now rewrite F.
Qed.
End Staleness.

Lemma submodules_always_stale_witness :
  In (INFO, MsgStale (r1 at_2591000) (inject_Z 1000 / 86400))
     (log (snd (run (engine at_2591000 false (Some 30%Z))
                  (initial at_2591000 (day_30 at_2591000))))).
Proof.
  apply (submodules_always_stale (engine at_2591000 false (Some 30%Z)) 30
           [] (to_config (full_plan at_2591000))
           [to_config (pull_only at_2591000)]
           (initial at_2591000 (day_30 at_2591000))
           (logged (initial at_2591000 (day_30 at_2591000))
              [(INFO, MsgScanning 30)])
           (timestamp_line "2591000") "" (day_30 at_2591000) 2591000
           eq_refl eq_refl eq_refl eq_refl eq_refl eq_refl eq_refl eq_refl).
Defined.

(** C5 on the code: thirty days after a last commit made at second 0,
    with a threshold of 30 days, [/r2] is not reported; the only report
    is the one of [/r1], which has a [.gitmodules] file. *)
Lemma stale_boundary_not_flagged :
  (inject_Z 0 == clock (day_30 at_0) - inject_Z (30 * 86400))%Q
  /\ filter is_stale_record
       (log (snd (run (engine at_0 false (Some 30%Z))
                    (initial at_0 (day_30 at_0)))))
     = [(INFO, MsgStale (r1 at_0) (inject_Z (30 * 86400) / 86400))].
Proof. split; reflexivity. Qed.

(** ** Resolution of the configuration *)

Section Resolution.
Context `{Platform}.

Lemma glob_loop w pattern entries acc st :
  world st = w ->
  fold_each entries acc (fun matched_paths p =>
    if fnmatch (name p) pattern then
      g <- ask_or OSError (fun w => is_dir w (joinpath p ".git")) ;;
      if g then
        r <- ask (fun w => resolve w p) ;;
        ret (matched_paths ++ [r])
      else ret matched_paths
    else ret matched_paths) st
  = match kept w pattern entries with
    | Some l => (Return (acc ++ map (resolve w) l), st)
    | None => (Raise OSError, st)
    end.
Proof.
  intros W. revert acc. induction entries as [|p entries IH]; intros acc.
  - simpl. now rewrite app_nil_r.
  - simpl fold_each. simpl kept. unfold bind at 1.
    destruct (fnmatch (name p) pattern).
    + unfold bind at 1. unfold ask_or at 1. rewrite W.
      destruct (is_dir w (joinpath p ".git")) as [[|]|]; cbn.
      * rewrite W, IH. destruct (kept w pattern entries); simpl;
          [now rewrite <- app_assoc | reflexivity].
      * rewrite IH. now destruct (kept w pattern entries).
      * reflexivity.
    + cbn. apply IH.
Qed.

Lemma match_paths_glob raw expanded st :
  has_glob raw = true ->
  match_paths raw expanded st
  = match search_root (world st) expanded with
    | inl e => (Raise e, st)
    | inr base =>
        match iterdir (world st) base with
        | None => (Raise OSError, st)
        | Some entries =>
            match kept (world st) (name expanded) entries with
            | Some l => (Return (map (resolve (world st)) l), st)
            | None => (Raise OSError, st)
            end
        end
    end.
Proof.
  intros G. unfold match_paths, search_root. rewrite G.
  unfold bind at 1. unfold ask_or at 1.
  destruct (path_exists (world st) (parent expanded)) as [[|]|];
    [| |reflexivity].
  - unfold bind at 1. unfold ret at 1. unfold bind at 1. unfold ask at 1.
    destruct (iterdir (world st) (parent expanded)); [|reflexivity].
    now rewrite (glob_loop (world st)).
  - unfold bind at 1. unfold ask_or at 1.
    destruct home as [h|]; [|reflexivity].
    unfold bind at 1. unfold ask at 1.
    destruct (iterdir (world st) h); [|reflexivity].
    now rewrite (glob_loop (world st)).
Qed.

Lemma match_paths_literal raw expanded st :
  has_glob raw = false ->
  match_paths raw expanded st
  = match is_dir (world st) expanded with
    | Some d =>
        (Return (if d then [resolve (world st) expanded] else []), st)
    | None => (Raise OSError, st)
    end.
Proof.
  intros G. unfold match_paths. rewrite G.
  unfold bind, ask_or, ask.
  now destruct (is_dir (world st) expanded) as [[|]|].
Qed.

(** [match_paths] computes [matched]. *)
Lemma match_paths_matched raw expanded st :
  expanduser (mkpath raw) = Some expanded ->
  match_paths raw expanded st
  = (match matched (world st) raw with
     | inr ps => Return ps
     | inl e => Raise e
     end, st).
Proof.
  intros X. unfold matched. rewrite X. destruct (has_glob raw) eqn:G.
  - rewrite match_paths_glob by exact G.
    destruct (search_root (world st) expanded) as [e|base]; [reflexivity|].
    destruct (iterdir (world st) base) as [entries|]; [|reflexivity].
    now destruct (kept (world st) (name expanded) entries).
  - rewrite match_paths_literal by exact G.
    now destruct (is_dir (world st) expanded).
Qed.

Lemma plans_loop items matched repos st :
  fold_each matched repos (fun repos repo_path =>
    logging DEBUG (MsgAddingRepo repo_path) ;;
    a_pull <- lift (py_get (VDict items) "auto_pull" (VBool true)) ;;
    a_push <- lift (py_get (VDict items) "auto_push" (VBool false)) ;;
    cl <- lift (py_get (VDict items) "clean" (VBool false)) ;;
    subm <- lift (py_get (VDict items) "update_submodules" (VBool false)) ;;
    cmds <- lift (py_get (VDict items) "commands" (VList [])) ;;
    repo <- RepoConfig_init repo_path a_pull a_push cl subm cmds ;;
    ret (repos ++ [repo])) st
  = (Return (repos ++ map (entry_config items) matched),
     logged st (flat_map entry_records matched)).
Proof.
  revert repos st. induction matched as [|p matched IH]; intros repos st.
  - simpl. now rewrite app_nil_r, logged_nil.
  - simpl fold_each. unfold bind at 1. cbn.
    rewrite IH, <- app_assoc. cbn. f_equal.
    unfold logged. cbn. now rewrite <- !app_assoc.
Qed.

(** One entry of [repos] that is a mapping with a string [path]. *)
Lemma load_entry_dict repos items raw st :
  dict_get items "path" = Some (VStr raw) ->
  load_entry repos (VDict items) st
  = match matched (world st) raw with
    | inr ps =>
        (Return (repos ++ map (entry_config items) ps),
         logged st (flat_map entry_records ps))
    | inl e => (Raise e, st)
    end.
Proof.
  intros P. unfold load_entry. cbn [py_get lift]. rewrite P.
  change (bind (ret ?v) ?k st) with (k v st). cbv beta iota.
  unfold bind at 1. unfold ask_or at 1.
  destruct (expanduser (mkpath raw)) as [expanded|] eqn:X.
  - unfold bind at 1. rewrite (match_paths_matched raw expanded st X).
    destruct (matched (world st) raw) as [e|ps]; [reflexivity|].
    apply plans_loop.
  - unfold matched. now rewrite X.
Qed.

Lemma kept_In w pattern entries found p :
  kept w pattern entries = Some found ->
  In p found
  <-> In p entries
      /\ fnmatch (name p) pattern = true
      /\ is_dir w (joinpath p ".git") = Some true.
Proof.
  revert found. induction entries as [|q entries IH]; intros found; simpl.
  - intros E. inversion E. simpl. tauto.
  - destruct (fnmatch (name q) pattern) eqn:F.
    + destruct (is_dir w (joinpath q ".git")) as [g|] eqn:D; [|discriminate].
      destruct (kept w pattern entries) as [l|]; [|discriminate].
      simpl. intros E. inversion E. subst found. clear E.
      specialize (IH l eq_refl).
      destruct g; simpl; rewrite IH; split.
      * intros [<-|(I & Fp & Dp)]; auto.
      * intros ([<-|I] & Fp & Dp); auto.
      * intros (I & Fp & Dp); auto.
      * intros ([<-|I] & Fp & Dp); auto. congruence.
    + intros E. rewrite (IH found E). split.
      * intros (I & Fp & Dp); auto.
      * intros ([<-|I] & Fp & Dp); auto. congruence.
Qed.

Lemma kept_total w pattern entries :
  (forall p, In p entries -> is_dir w (joinpath p ".git") <> None) ->
  exists found, kept w pattern entries = Some found.
Proof.
  induction entries as [|q entries IH]; intros A; simpl.
  - now exists [].
  - destruct IH as [l El]; [intros p I; apply A; now right|].
    rewrite El. destruct (fnmatch (name q) pattern); [|now exists l].
    destruct (is_dir w (joinpath q ".git")) as [g|] eqn:D.
    + simpl. eexists. reflexivity.
    + elim (A q (or_introl eq_refl) D).
Qed.

Lemma matched_glob w raw expanded base entries found :
  has_glob raw = true ->
  expanduser (mkpath raw) = Some expanded ->
  search_root w expanded = inr base ->
  iterdir w base = Some entries ->
  kept w (name expanded) entries = Some found ->
  matched w raw = inr (map (resolve w) found).
Proof.
  intros G X B L K. unfold matched. now rewrite X, G, B, L, K.
Qed.

(** When a glob resolves, every path it yields is a listed entry that
    matches and has a [.git] directory. *)
Lemma matched_glob_inv w raw ps :
  has_glob raw = true ->
  matched w raw = inr ps ->
  exists expanded base entries found,
    expanduser (mkpath raw) = Some expanded
    /\ search_root w expanded = inr base
    /\ iterdir w base = Some entries
    /\ kept w (name expanded) entries = Some found
    /\ ps = map (resolve w) found.
Proof.
  intros G. unfold matched. rewrite G.
  destruct (expanduser (mkpath raw)) as [expanded|]; [|discriminate].
  destruct (search_root w expanded) as [e|base] eqn:B; [discriminate|].
  destruct (iterdir w base) as [entries|] eqn:L; [|discriminate].
  destruct (kept w (name expanded) entries) as [found|] eqn:K;
    [|discriminate].
  intros E. inversion E. now exists expanded, base, entries, found.
Qed.

Lemma no_exit_ask_or {A} e (f : World -> option A) :
  (forall code, e <> SystemExit code) -> no_exit (ask_or e f).
Proof.
  intros N st code. unfold ask_or. destruct (f (world st)); simpl.
  - discriminate.
  - intros E. apply (N code). now inversion E.
Qed.

Lemma no_exit_ret {A} (a : A) : no_exit (ret a).
Proof. intros st code. discriminate. Qed.

Lemma no_exit_logging lvl msg : no_exit (logging lvl msg).
Proof. intros st code. discriminate. Qed.

Lemma no_exit_ask {A} (f : World -> A) : no_exit (ask f).
Proof. intros st code. discriminate. Qed.

Lemma no_exit_bind {A B} (c : M A) (k : A -> M B) :
  no_exit c -> (forall a, no_exit (k a)) -> no_exit (bind c k).
Proof.
  intros Hc Hk st code. unfold bind. specialize (Hc st code).
  destruct (c st) as [[a|e] st']; [apply Hk|].
  simpl in *. intros E. apply Hc. now inversion E.
Qed.

Lemma no_exit_get d k default : no_exit (lift (py_get d k default)).
Proof. intros st code. destruct d; discriminate. Qed.

Lemma no_exit_iter v : no_exit (lift (py_iter v)).
Proof. intros st code. destruct v; discriminate. Qed.

Lemma no_exit_fold_each {A B} (l : list A) (body : B -> A -> M B) :
  (forall acc x, no_exit (body acc x)) ->
  forall acc, no_exit (fold_each l acc body).
Proof.
  intros Hb. induction l as [|x l IH]; intros acc; simpl.
  - apply no_exit_ret.
  - apply no_exit_bind; [apply Hb | intros a; apply IH].
Qed.

Lemma no_exit_match_paths raw expanded : no_exit (match_paths raw expanded).
Proof.
  unfold match_paths. destruct (has_glob raw).
  - apply no_exit_bind; [now apply no_exit_ask_or | intros pe].
    apply no_exit_bind.
    { destruct pe; [apply no_exit_ret | now apply no_exit_ask_or]. }
    intros base.
    apply no_exit_bind; [apply no_exit_ask | intros [entries|]].
    + apply no_exit_fold_each. intros acc p.
      destruct (fnmatch _ _); [|apply no_exit_ret].
      apply no_exit_bind; [now apply no_exit_ask_or | intros [|]].
      * apply no_exit_bind; [apply no_exit_ask | intros r; apply no_exit_ret].
      * apply no_exit_ret.
    + intros st code. discriminate.
  - apply no_exit_bind; [now apply no_exit_ask_or | intros [|]].
    + apply no_exit_bind; [apply no_exit_ask | intros r; apply no_exit_ret].
    + apply no_exit_ret.
Qed.

Lemma no_exit_load_entry repos entry : no_exit (load_entry repos entry).
Proof.
  unfold load_entry.
  apply no_exit_bind; [apply no_exit_get | intros raw].
  destruct raw; try (intros st code; discriminate).
  apply no_exit_bind; [now apply no_exit_ask_or | intros expanded].
  apply no_exit_bind; [apply no_exit_match_paths | intros matched].
  apply no_exit_fold_each. intros acc repo_path.
  apply no_exit_bind; [apply no_exit_logging | intros _].
  repeat (apply no_exit_bind; [apply no_exit_get | intros ?]).
  apply no_exit_bind; [|intros r; apply no_exit_ret].
  unfold RepoConfig_init.
  apply no_exit_bind; [apply no_exit_logging | intros _; apply no_exit_ret].
Qed.

(** The part of [load_from_file] that follows a successful parse. *)
Lemma load_from_file_parsed p st data :
  path_exists (world st) p = Some true ->
  safe_load (world st) p = Loaded data ->
  load_from_file p st
  = (rs <- lift (py_get data "repos" (VList [])) ;;
     entries <- lift (py_iter rs) ;;
     repos <- fold_each entries [] load_entry ;;
     GitAroundConfig_init repos) (logged st [(INFO, MsgLoading p)]).
Proof.
  intros E L. unfold load_from_file, bind, logging, ask_or, ask, logged.
  cbn [world log spawned]. rewrite E. cbn [negb ret world]. rewrite L.
  reflexivity.
Qed.
End Resolution.

(** ** Globs, literal paths and malformed configurations *)

Section ResolutionClaims.
Context `{Platform}.

(** C7, as the code has it.  For an entry whose path specifier contains
    [*], [?] or [[] and whose tilde expansion succeeds: the directory
    searched is the parent of the expanded specifier when it exists, and
    the home directory when it does not.  When that directory can be
    listed and the [.git] test of every matching entry returns, the paths
    kept are exactly the listed entries whose name matches the last
    component and which have a [.git] subdirectory; each yields one plan;
    with no entry kept the plans are unchanged and nothing is logged or
    raised.  When the directory to search cannot be found or listed, or a
    [.git] test raises, the exception leaves [load_entry], whether or not
    anything matches. *)
Theorem glob_resolution repos items raw st expanded :
  dict_get items "path" = Some (VStr raw) ->
  has_glob raw = true ->
  expanduser (mkpath raw) = Some expanded ->
  let w := world st in
  (path_exists w (parent expanded) = Some true ->
   search_root w expanded = inr (parent expanded))
  /\ (forall h, path_exists w (parent expanded) = Some false ->
        home = Some h -> search_root w expanded = inr h)
  /\ (forall base entries,
        search_root w expanded = inr base ->
        iterdir w base = Some entries ->
        (forall p, In p entries -> is_dir w (joinpath p ".git") <> None) ->
        exists found, kept w (name expanded) entries = Some found)
  /\ (forall base entries found,
        search_root w expanded = inr base ->
        iterdir w base = Some entries ->
        kept w (name expanded) entries = Some found ->
        (forall p, In p found <->
                   In p entries
                   /\ fnmatch (name p) (name expanded) = true
                   /\ is_dir w (joinpath p ".git") = Some true)
        /\ match_paths raw expanded st = (Return (map (resolve w) found), st)
        /\ load_entry repos (VDict items) st
           = (Return (repos ++ map (entry_config items)
                                 (map (resolve w) found)),
              logged st (flat_map entry_records (map (resolve w) found)))
        /\ (found = [] ->
            load_entry repos (VDict items) st = (Return repos, st)))
  /\ (forall e, search_root w expanded = inl e ->
        load_entry repos (VDict items) st = (Raise e, st))
  /\ (forall base, search_root w expanded = inr base ->
        iterdir w base = None ->
        load_entry repos (VDict items) st = (Raise OSError, st))
  /\ (forall base entries, search_root w expanded = inr base ->
        iterdir w base = Some entries ->
        kept w (name expanded) entries = None ->
        load_entry repos (VDict items) st = (Raise OSError, st)).
Proof.
  intros P G X w.
  pose proof (load_entry_dict repos items raw st P) as E.
  pose proof (match_paths_matched raw expanded st X) as M.
  fold w in E, M. unfold matched in E, M. rewrite X, G in E, M.
  split; [|split; [|split; [|split; [|split; [|split]]]]].
  - intros D. unfold search_root. now rewrite D.
  - intros h D Hh. unfold search_root. now rewrite D, Hh.
  - intros base entries _ _ A. now apply kept_total.
  - intros base entries found B L K. rewrite B, L, K in E, M.
    split; [|split; [exact M | split; [exact E|]]].
    + intros p. now apply kept_In.
    + intros N. rewrite E, N. simpl. now rewrite app_nil_r, logged_nil.
  - intros e B. now rewrite B in E.
  - intros base B L. now rewrite B, L in E.
  - intros base entries B L K. now rewrite B, L, K in E.
Qed.

(** C9, as the code has it.  A plan that comes from a glob is the resolved
    form of a listed entry that had a [.git] subdirectory when the
    configuration was resolved.  A literal specifier yields a plan exactly
    when the expanded path is a directory: no [.git] is asked for.  When a
    plan is processed only its path being a directory is checked again. *)
Theorem git_metadata_only_for_globs repos items raw st expanded :
  dict_get items "path" = Some (VStr raw) ->
  expanduser (mkpath raw) = Some expanded ->
  let w := world st in
  (has_glob raw = true ->
   (forall base entries found,
      search_root w expanded = inr base ->
      iterdir w base = Some entries ->
      kept w (name expanded) entries = Some found ->
      exists new,
        fst (load_entry repos (VDict items) st) = Return (repos ++ new)
        /\ forall r, In r new ->
             exists p, In p entries /\ path r = resolve w p
                       /\ is_dir w (joinpath p ".git") = Some true)
   /\ (forall rs,
         fst (load_entry repos (VDict items) st) = Return rs ->
         exists base entries new,
           search_root w expanded = inr base
           /\ iterdir w base = Some entries
           /\ rs = repos ++ new
           /\ forall r, In r new ->
                exists p, In p entries /\ path r = resolve w p
                          /\ is_dir w (joinpath p ".git") = Some true))
  /\ (has_glob raw = false ->
      load_entry repos (VDict items) st
      = match is_dir w expanded with
        | Some true =>
            (Return (repos ++ [entry_config items (resolve w expanded)]),
             logged st (entry_records (resolve w expanded)))
        | Some false => (Return repos, st)
        | None => (Raise OSError, st)
        end)
  /\ (forall self r st',
        is_dir (world st') (path r) = Some true ->
        run_body self r st'
        = _process_repo self r
            (logged st' [(INFO, MsgProcessingAt (path r))])).
Proof.
  intros P X w.
  pose proof (load_entry_dict repos items raw st P) as E. fold w in E.
  assert (forall entries found,
            kept w (name expanded) entries = Some found ->
            forall r,
              In r (map (entry_config items) (map (resolve w) found)) ->
              exists p, In p entries /\ path r = resolve w p
                        /\ is_dir w (joinpath p ".git") = Some true) as K.
  { intros entries found Kf r I. rewrite map_map in I.
    apply in_map_iff in I. destruct I as (p & <- & I).
    apply (kept_In w _ entries found p Kf) in I.
    destruct I as (I & _ & D). now exists p. }
  split; [|split].
  - intros G. split.
    + intros base entries found B L Kf.
      rewrite (matched_glob w raw expanded base entries found G X B L Kf)
        in E.
      eexists. split; [now rewrite E|]. exact (K entries found Kf).
    + intros rs R.
      destruct (matched w raw) as [e|ps] eqn:M;
        rewrite E in R; [discriminate|].
      destruct (matched_glob_inv w raw ps G M)
        as (x & base & entries & found & X' & B & L & Kf & ->).
      rewrite X in X'. inversion X'. subst x.
      exists base, entries. eexists. repeat split; try assumption.
      * simpl in R. inversion R. reflexivity.
      * exact (K entries found Kf).
  - intros G. rewrite E. unfold matched. rewrite X, G.
    destruct (is_dir w expanded) as [[|]|]; simpl;
      rewrite ?app_nil_r, ?logged_nil; reflexivity.
  - intros self r st' D. now apply run_body_dir.
Qed.

(** C10.  A configuration file that exists and parses to [None] makes
    [load_from_file] raise [AttributeError]; an entry of [repos] that is a
    mapping without [path] makes it raise [TypeError]; in both cases
    nothing is logged after the "Loading" record.  [load_from_file] ends
    with [SystemExit] exactly when the file does not exist or does not
    parse, and then with code 1. *)
Theorem load_uncaught_errors p st :
  let w := world st in
  let loading := logged st [(INFO, MsgLoading p)] in
  (path_exists w p = Some true -> safe_load w p = Loaded VNone ->
   load_from_file p st = (Raise AttributeError, loading))
  /\ (forall top items others,
        path_exists w p = Some true ->
        safe_load w p = Loaded (VDict top) ->
        dict_get top "repos" = Some (VList (VDict items :: others)) ->
        dict_get items "path" = None ->
        load_from_file p st = (Raise TypeError, loading))
  /\ (forall code,
        fst (load_from_file p st) = Raise (SystemExit code)
        <-> code = 1%Z
            /\ (path_exists w p = Some false
                \/ (path_exists w p = Some true
                    /\ safe_load w p = YAMLError))).
Proof.
  intros w loading. split; [|split].
  - intros E L. now rewrite (load_from_file_parsed p st VNone E L).
  - intros top items others E L R N.
    rewrite (load_from_file_parsed p st (VDict top) E L).
    cbn [py_get lift]. rewrite R.
    change (bind (ret ?v) ?k ?s) with (k v s). cbv beta.
    cbn [py_iter lift]. change (bind (ret ?v) ?k ?s) with (k v s). cbv beta.
    apply bind_Raise. simpl fold_each. apply bind_Raise.
    unfold load_entry. cbn [py_get lift]. rewrite N. reflexivity.
  - intros code. destruct (path_exists w p) as [[|]|] eqn:E.
    + destruct (safe_load w p) as [| |data] eqn:L.
      * unfold load_from_file, bind, logging, ask_or, ask. cbn [world].
        fold w. rewrite E. cbn [negb ret world]. fold w. rewrite L. cbn.
        split; [discriminate | intros (_ & [F|[_ F]]); discriminate].
      * unfold load_from_file, bind, logging, ask_or, ask. cbn [world].
        fold w. rewrite E. cbn [negb ret world]. fold w. rewrite L. cbn.
        split.
        -- intros F. inversion F. split; [reflexivity | now right].
        -- intros (-> & _). reflexivity.
      * rewrite (load_from_file_parsed p st data E L). split.
        -- intros F. exfalso. revert F.
           apply (no_exit_bind (lift (py_get data "repos" (VList [])))).
           ++ apply no_exit_get.
           ++ intros rs.
              apply no_exit_bind; [apply no_exit_iter | intros entries].
              apply no_exit_bind.
              ** apply no_exit_fold_each. intros acc x.
                 apply no_exit_load_entry.
              ** intros rs'. unfold GitAroundConfig_init.
                 apply no_exit_bind;
                   [apply no_exit_logging | intros _; apply no_exit_ret].
        -- intros (_ & [F|[_ F]]); discriminate.
    + unfold load_from_file, bind, logging, ask_or, ask. cbn [world].
      fold w. rewrite E. cbn. split.
      * intros F. inversion F. split; [reflexivity | now left].
      * intros (-> & _). reflexivity.
    + unfold load_from_file, bind, logging, ask_or, ask. cbn [world].
      fold w. rewrite E. cbn. split.
      * discriminate.
      * intros (_ & [F|[F _]]); discriminate.
Qed.
End ResolutionClaims.

(** ** The resolution claims on concrete configurations *)

Lemma glob_resolution_witness :
  fst (load_entry [] (VDict [("path", VStr "/srv/a*")])
         (initial all_ok (srv all_ok (Loaded (one_entry "/srv/a*")))))
  = Return [entry_config [("path", VStr "/srv/a*")] (srv_app all_ok)].
Proof.
  destruct (glob_resolution [] [("path", VStr "/srv/a*")] "/srv/a*"
              (initial all_ok (srv all_ok (Loaded (one_entry "/srv/a*"))))
              "/srv/a*" eq_refl eq_refl eq_refl) as (_ & _ & _ & E & _).
  destruct (E "/srv" ["/srv/app"; "/srv/api"; "/srv/notes"] ["/srv/app"]
              eq_refl eq_refl eq_refl) as (_ & _ & L & _).
  rewrite L. reflexivity.
Defined.

(** C7 fails on the code.  The parent of the specifier [/cfg/a*] exists
    but is a regular file: it is the directory searched, listing it
    raises, and loading ends with [OSError], although no entry matches
    and the claim promises zero plans without error. *)
Lemma glob_under_file_raises :
  has_glob "/cfg/a*" = true
  /\ path_exists (srv all_ok (Loaded (one_entry "/cfg/a*"))) (cfg all_ok)
     = Some true
  /\ iterdir (srv all_ok (Loaded (one_entry "/cfg/a*"))) (cfg all_ok) = None
  /\ load_from_file (cfg all_ok)
       (initial all_ok (srv all_ok (Loaded (one_entry "/cfg/a*"))))
     = (Raise OSError,
        logged (initial all_ok (srv all_ok (Loaded (one_entry "/cfg/a*"))))
          [(INFO, MsgLoading (cfg all_ok))]).
Proof. repeat split. Qed.

Lemma git_metadata_only_for_globs_witness :
  fst (load_entry [] (VDict [("path", VStr "/srv/notes")])
         (initial all_ok (srv all_ok (Loaded (one_entry "/srv/notes")))))
  = Return [entry_config [("path", VStr "/srv/notes")] (srv_notes all_ok)].
Proof.
  destruct (git_metadata_only_for_globs [] [("path", VStr "/srv/notes")]
              "/srv/notes"
              (initial all_ok (srv all_ok (Loaded (one_entry "/srv/notes"))))
              "/srv/notes" eq_refl eq_refl) as (_ & E & _).
  rewrite (E eq_refl). reflexivity.
Defined.

(** C9 fails on the code: the literal specifier [/srv/notes] names a
    directory without [.git]; it becomes a plan all the same, and the
    housekeeping run starts [git pull] in it. *)
Lemma literal_plan_without_git :
  is_dir (srv all_ok (Loaded (one_entry "/srv/notes")))
    (joinpath (srv_notes all_ok) ".git") = Some false
  /\ fst (load_from_file (cfg all_ok)
            (initial all_ok (srv all_ok (Loaded (one_entry "/srv/notes")))))
     = Return (mkConfig [entry_config [("path", VStr "/srv/notes")]
                           (srv_notes all_ok)])
  /\ fst (main (cfg all_ok) false None
            (initial all_ok (srv all_ok (Loaded (one_entry "/srv/notes")))))
     = Return tt
  /\ spawned (snd (main (cfg all_ok) false None
                     (initial all_ok
                        (srv all_ok (Loaded (one_entry "/srv/notes"))))))
     = [Invoke git_pull false (srv_notes all_ok)].
Proof. repeat split. Qed.

Lemma load_uncaught_errors_witness :
  fst (load_from_file (cfg all_ok)
         (initial all_ok (srv all_ok (Loaded VNone))))
  = Raise AttributeError
  /\ fst (load_from_file (cfg all_ok)
            (initial all_ok (srv all_ok (Loaded pathless_entry))))
     = Raise TypeError.
Proof.
  split.
  - destruct (load_uncaught_errors (cfg all_ok)
                (initial all_ok (srv all_ok (Loaded VNone)))) as (E & _).
    now rewrite (E eq_refl eq_refl).
  - destruct (load_uncaught_errors (cfg all_ok)
                (initial all_ok (srv all_ok (Loaded pathless_entry))))
      as (_ & E & _).
    now rewrite (E _ _ _ eq_refl eq_refl eq_refl eq_refl).
Defined.

(** * Further properties of the program *)

(** ** Footprints *)

Section FootprintLaws.
Context `{Platform}.

Lemma footprint_weaken {A} (P P' : invocation -> Prop)
    (Q Q' : record -> Prop) (c : M A) :
  (forall i, P i -> P' i) -> (forall r, Q r -> Q' r) ->
  footprint P Q c -> footprint P' Q' c.
Proof.
  intros HP HQ F st. destruct (F st) as (s & l & Es & Fs & El & Fl).
  exists s, l. repeat split; try assumption.
  - eapply Forall_impl; [exact HP | exact Fs].
  - eapply Forall_impl; [exact HQ | exact Fl].
Qed.

Lemma footprint_ret {A} P Q (a : A) : footprint P Q (ret a).
Proof.
  intros st. exists [], []. simpl. rewrite !app_nil_r. now repeat split.
Qed.

Lemma footprint_raise {A} P Q e : footprint P Q (@raise _ A e).
Proof.
  intros st. exists [], []. simpl. rewrite !app_nil_r. now repeat split.
Qed.

Lemma footprint_lift {A} P Q (r : exn + A) : footprint P Q (lift r).
Proof.
  destruct r; [apply footprint_raise | apply footprint_ret].
Qed.

Lemma footprint_ask {A} P Q (f : World -> A) : footprint P Q (ask f).
Proof.
  intros st. exists [], []. simpl. rewrite !app_nil_r. now repeat split.
Qed.

Lemma footprint_ask_or {A} P Q e (f : World -> option A) :
  footprint P Q (ask_or e f).
Proof.
  intros st. exists [], []. unfold ask_or.
  destruct (f (world st)); simpl; rewrite !app_nil_r; now repeat split.
Qed.

Lemma footprint_now P Q : footprint P Q now.
Proof.
  intros st. exists [], []. unfold now.
  destruct (time_time (world st)) as [t w]. simpl.
  rewrite !app_nil_r. now repeat split.
Qed.

Lemma footprint_logging (P : invocation -> Prop) (Q : record -> Prop)
    lvl msg :
  Q (lvl, msg) -> footprint P Q (logging lvl msg).
Proof.
  intros HQ st. exists [], [(lvl, msg)]. simpl. rewrite app_nil_r.
  repeat split; [constructor | now constructor].
Qed.

Lemma footprint_start (P : invocation -> Prop) (Q : record -> Prop)
    cmd shell cwd :
  P (Invoke cmd shell cwd) -> footprint P Q (start cmd shell cwd).
Proof.
  intros HP st. unfold start.
  destruct (spawn _ _ _ _) as [[e| | |] w]; simpl;
    [exists [], []; rewrite !app_nil_r; now repeat split | | |];
    (exists [Invoke cmd shell cwd], []; rewrite app_nil_r;
     repeat split; [now constructor | constructor]).
Qed.

Lemma footprint_bind {A B} P Q (c : M A) (k : A -> M B) :
  footprint P Q c -> (forall a, footprint P Q (k a)) ->
  footprint P Q (bind c k).
Proof.
  intros Fc Fk st. destruct (Fc st) as (s & l & Es & Fs & El & Fl).
  unfold bind. destruct (c st) as [[a|e] st']; simpl in Es, El.
  - destruct (Fk a st') as (s' & l' & Es' & Fs' & El' & Fl').
    exists (s ++ s'), (l ++ l').
    rewrite Es', El', Es, El, <- !app_assoc.
    repeat split; now apply Forall_app.
  - exists s, l. now repeat split.
Qed.

Lemma footprint_except {A} P Q (c h : M A) :
  footprint P Q c -> footprint P Q h ->
  footprint P Q (except_CalledProcessError c h).
Proof.
  intros Fc Fh st. destruct (Fc st) as (s & l & Es & Fs & El & Fl).
  unfold except_CalledProcessError.
  destruct (c st) as [[a|e] st']; simpl in Es, El;
    [exists s, l; now repeat split|].
  destruct e; try (exists s, l; now repeat split).
  destruct (Fh st') as (s' & l' & Es' & Fs' & El' & Fl').
  exists (s ++ s'), (l ++ l').
  rewrite Es', El', Es, El, <- !app_assoc.
  repeat split; now apply Forall_app.
Qed.

Lemma footprint_for_each {A} P Q (l : list A) (body : A -> M unit) :
  (forall x, In x l -> footprint P Q (body x)) ->
  footprint P Q (for_each l body).
Proof.
  induction l as [|x l IH]; intros Hb; simpl.
  - apply footprint_ret.
  - apply footprint_bind; [apply Hb; now left|].
    intros _. apply IH. intros y I. apply Hb. now right.
Qed.

Lemma footprint_fold_each {A B} P Q (l : list A) (body : B -> A -> M B) :
  (forall acc x, In x l -> footprint P Q (body acc x)) ->
  forall acc, footprint P Q (fold_each l acc body).
Proof.
  induction l as [|x l IH]; intros Hb acc; simpl.
  - apply footprint_ret.
  - apply footprint_bind; [apply Hb; now left|].
    intros acc'. apply IH. intros a y I. apply Hb. now right.
Qed.

Lemma keeps_world_ret {A} (a : A) : keeps_world (ret a).
Proof. intros st. reflexivity. Qed.

Lemma keeps_world_raise {A} e : keeps_world (@raise _ A e).
Proof. intros st. reflexivity. Qed.

Lemma keeps_world_lift {A} (r : exn + A) : keeps_world (lift r).
Proof. destruct r; intros st; reflexivity. Qed.

Lemma keeps_world_ask {A} (f : World -> A) : keeps_world (ask f).
Proof. intros st. reflexivity. Qed.

Lemma keeps_world_ask_or {A} e (f : World -> option A) :
  keeps_world (ask_or e f).
Proof. intros st. unfold ask_or. now destruct (f (world st)). Qed.

Lemma keeps_world_logging lvl msg : keeps_world (logging lvl msg).
Proof. intros st. reflexivity. Qed.

Lemma keeps_world_bind {A B} (c : M A) (k : A -> M B) :
  keeps_world c -> (forall a, keeps_world (k a)) -> keeps_world (bind c k).
Proof.
  intros Kc Kk st. specialize (Kc st). unfold bind.
  destruct (c st) as [[a|e] st']; simpl in Kc; [|exact Kc].
  now rewrite Kk.
Qed.

Lemma keeps_world_for_each {A} (l : list A) (body : A -> M unit) :
  (forall x, keeps_world (body x)) -> keeps_world (for_each l body).
Proof.
  intros Hb. induction l as [|x l IH]; simpl.
  - apply keeps_world_ret.
  - apply keeps_world_bind; [apply Hb | intros _; exact IH].
Qed.

Lemma keeps_world_fold_each {A B} (l : list A) (body : B -> A -> M B) :
  (forall acc x, keeps_world (body acc x)) ->
  forall acc, keeps_world (fold_each l acc body).
Proof.
  intros Hb. induction l as [|x l IH]; intros acc; simpl.
  - apply keeps_world_ret.
  - apply keeps_world_bind; [apply Hb | intros a; apply IH].
Qed.
End FootprintLaws.

(** ** Footprints of the program *)

Section ProgramFootprints.
Context `{Platform}.

Lemma footprint_run_command (P : invocation -> Prop) (Q : record -> Prop)
    self cmd shell cwd :
  (dry_run self = false -> P (Invoke cmd shell cwd)) ->
  (forall r, Q r) ->
  footprint P Q (_run_command self cmd shell cwd).
Proof.
  intros HP HQ. unfold _run_command. cbv zeta.
  destruct (dry_run self); [apply footprint_logging, HQ|].
  apply footprint_bind; [apply footprint_logging, HQ | intros _].
  apply footprint_bind; [now apply footprint_start, HP|].
  intros [e| |rc out err|rc]; try apply footprint_raise.
  destruct (negb (rc =? 0)%Z); [|apply footprint_logging, HQ].
  apply footprint_bind;
    [apply footprint_logging, HQ | intros _; apply footprint_logging, HQ].
Qed.

Lemma footprint_process_repo (P : invocation -> Prop) (Q : record -> Prop)
    self r :
  Q (INFO, MsgProcessingRepo (path r)) ->
  (forall cmd shell, footprint P Q (_run_command self cmd shell (path r))) ->
  footprint P Q (_process_repo self r).
Proof.
  intros HQ HR. unfold _process_repo.
  apply footprint_bind; [now apply footprint_logging | intros _].
  apply footprint_bind.
  - apply footprint_for_each. intros [cmd_args enabled] _.
    destruct (truthy enabled); [apply HR | apply footprint_ret].
  - intros _. apply footprint_bind; [apply footprint_lift | intros cmds].
    apply footprint_bind.
    + apply footprint_for_each. intros cmd _. apply HR.
    + intros _. destruct (truthy (auto_push r));
        [apply HR | apply footprint_ret].
Qed.

Lemma footprint_run_body (P : invocation -> Prop) (Q : record -> Prop)
    self r :
  (forall lvl msg, lvl <> ERROR -> Q (lvl, msg)) ->
  (forall cmd shell, footprint P Q (_run_command self cmd shell (path r))) ->
  footprint P Q (run_body self r).
Proof.
  intros HQ HR. unfold run_body.
  apply footprint_bind;
    [apply footprint_logging, HQ; discriminate | intros _].
  apply footprint_bind; [apply footprint_ask_or | intros d].
  destruct d; cbn [negb].
  - apply footprint_process_repo; [apply HQ; discriminate | exact HR].
  - apply footprint_logging, HQ. discriminate.
Qed.

Lemma footprint_check_output (P : invocation -> Prop) (Q : record -> Prop)
    cmd cwd :
  P (Invoke cmd false cwd) -> footprint P Q (check_output cmd cwd).
Proof.
  intros HP. unfold check_output.
  apply footprint_bind; [now apply footprint_start|].
  intros [e| |rc out err|rc]; try apply footprint_raise.
  destruct (rc =? 0)%Z; [apply footprint_ret | apply footprint_raise].
Qed.

Lemma footprint_report_stale_body (P : invocation -> Prop)
    (Q : record -> Prop) cutoff r :
  P (Invoke git_log false (path r)) ->
  (forall lvl msg, lvl <> ERROR -> Q (lvl, msg)) ->
  footprint P Q (_report_stale_body cutoff r).
Proof.
  intros HP HQ. unfold _report_stale_body.
  apply footprint_bind; [apply footprint_ask_or | intros d].
  destruct d; cbn [negb]; [|apply footprint_ret].
  apply footprint_except; [|apply footprint_logging, HQ; discriminate].
  apply footprint_bind; [now apply footprint_check_output | intros out].
  apply footprint_bind.
  { destruct (py_int (strip out));
      [apply footprint_ret | apply footprint_raise]. }
  intros last. apply footprint_bind; [apply footprint_now | intros t].
  apply footprint_bind.
  { destruct (Qltb _ _); [apply footprint_ret|].
    destruct (truthy _); [apply footprint_ask_or | apply footprint_ret]. }
  intros stale. destruct stale; [|apply footprint_ret].
  apply footprint_logging, HQ. discriminate.
Qed.

Lemma footprint_match_paths (P : invocation -> Prop) (Q : record -> Prop)
    raw expanded :
  footprint P Q (match_paths raw expanded).
Proof.
  unfold match_paths. destruct (has_glob raw).
  - apply footprint_bind; [apply footprint_ask_or | intros pe].
    apply footprint_bind.
    { destruct pe; [apply footprint_ret | apply footprint_ask_or]. }
    intros base.
    apply footprint_bind; [apply footprint_ask | intros [entries|]].
    + apply footprint_fold_each. intros acc p _.
      destruct (fnmatch _ _); [|apply footprint_ret].
      apply footprint_bind; [apply footprint_ask_or | intros [|]].
      * apply footprint_bind;
          [apply footprint_ask | intros r; apply footprint_ret].
      * apply footprint_ret.
    + apply footprint_raise.
  - apply footprint_bind; [apply footprint_ask_or | intros [|]].
    + apply footprint_bind;
        [apply footprint_ask | intros r; apply footprint_ret].
    + apply footprint_ret.
Qed.

Lemma footprint_load_entry (P : invocation -> Prop) (Q : record -> Prop)
    repos entry :
  (forall lvl msg, lvl <> ERROR -> Q (lvl, msg)) ->
  footprint P Q (load_entry repos entry).
Proof.
  intros HQ. unfold load_entry.
  apply footprint_bind; [apply footprint_lift | intros raw].
  destruct raw; try apply footprint_raise.
  apply footprint_bind; [apply footprint_ask_or | intros expanded].
  apply footprint_bind; [apply footprint_match_paths | intros matched].
  apply footprint_fold_each. intros acc repo_path _.
  apply footprint_bind;
    [apply footprint_logging, HQ; discriminate | intros _].
  repeat (apply footprint_bind; [apply footprint_lift | intros ?]).
  apply footprint_bind; [|intros r; apply footprint_ret].
  unfold RepoConfig_init.
  apply footprint_bind;
    [apply footprint_logging, HQ; discriminate
    | intros _; apply footprint_ret].
Qed.

Lemma footprint_load_from_file (P : invocation -> Prop) p :
  footprint P (fun _ => True) (load_from_file p).
Proof.
  unfold load_from_file.
  apply footprint_bind; [now apply footprint_logging | intros _].
  apply footprint_bind; [apply footprint_ask_or | intros e].
  apply footprint_bind.
  { destruct e; cbn [negb]; [apply footprint_ret|].
    apply footprint_bind;
      [now apply footprint_logging | intros _; apply footprint_raise]. }
  intros _. apply footprint_bind; [apply footprint_ask | intros r].
  apply footprint_bind.
  { destruct r; [apply footprint_raise | | apply footprint_ret].
    apply footprint_bind;
      [now apply footprint_logging | intros _; apply footprint_raise]. }
  intros data. apply footprint_bind; [apply footprint_lift | intros rs].
  apply footprint_bind; [apply footprint_lift | intros entries].
  apply footprint_bind.
  - apply footprint_fold_each. intros acc x _.
    now apply footprint_load_entry.
  - intros repos. unfold GitAroundConfig_init.
    apply footprint_bind;
      [now apply footprint_logging | intros _; apply footprint_ret].
Qed.

Lemma keeps_world_match_paths raw expanded :
  keeps_world (match_paths raw expanded).
Proof.
  unfold match_paths. destruct (has_glob raw).
  - apply keeps_world_bind; [apply keeps_world_ask_or | intros pe].
    apply keeps_world_bind.
    { destruct pe; [apply keeps_world_ret | apply keeps_world_ask_or]. }
    intros base.
    apply keeps_world_bind; [apply keeps_world_ask | intros [entries|]].
    + apply keeps_world_fold_each. intros acc p.
      destruct (fnmatch _ _); [|apply keeps_world_ret].
      apply keeps_world_bind; [apply keeps_world_ask_or | intros [|]].
      * apply keeps_world_bind;
          [apply keeps_world_ask | intros r; apply keeps_world_ret].
      * apply keeps_world_ret.
    + apply keeps_world_raise.
  - apply keeps_world_bind; [apply keeps_world_ask_or | intros [|]].
    + apply keeps_world_bind;
        [apply keeps_world_ask | intros r; apply keeps_world_ret].
    + apply keeps_world_ret.
Qed.

Lemma keeps_world_load_entry repos entry :
  keeps_world (load_entry repos entry).
Proof.
  unfold load_entry.
  apply keeps_world_bind; [apply keeps_world_lift | intros raw].
  destruct raw; try apply keeps_world_raise.
  apply keeps_world_bind; [apply keeps_world_ask_or | intros expanded].
  apply keeps_world_bind; [apply keeps_world_match_paths | intros matched].
  apply keeps_world_fold_each. intros acc repo_path.
  apply keeps_world_bind; [apply keeps_world_logging | intros _].
  repeat (apply keeps_world_bind; [apply keeps_world_lift | intros ?]).
  apply keeps_world_bind; [|intros r; apply keeps_world_ret].
  unfold RepoConfig_init.
  apply keeps_world_bind;
    [apply keeps_world_logging | intros _; apply keeps_world_ret].
Qed.

Lemma keeps_world_load_from_file p : keeps_world (load_from_file p).
Proof.
  unfold load_from_file.
  apply keeps_world_bind; [apply keeps_world_logging | intros _].
  apply keeps_world_bind; [apply keeps_world_ask_or | intros e].
  apply keeps_world_bind.
  { destruct e; cbn [negb]; [apply keeps_world_ret|].
    apply keeps_world_bind;
      [apply keeps_world_logging | intros _; apply keeps_world_raise]. }
  intros _. apply keeps_world_bind; [apply keeps_world_ask | intros r].
  apply keeps_world_bind.
  { destruct r; [apply keeps_world_raise | | apply keeps_world_ret].
    apply keeps_world_bind;
      [apply keeps_world_logging | intros _; apply keeps_world_raise]. }
  intros data. apply keeps_world_bind; [apply keeps_world_lift | intros rs].
  apply keeps_world_bind; [apply keeps_world_lift | intros entries].
  apply keeps_world_bind.
  - apply keeps_world_fold_each. intros acc x.
    apply keeps_world_load_entry.
  - intros repos. unfold GitAroundConfig_init.
    apply keeps_world_bind;
      [apply keeps_world_logging | intros _; apply keeps_world_ret].
Qed.

Lemma keeps_world_dry_process_repo self r :
  dry_run self = true -> keeps_world (_process_repo self r).
Proof.
  intros D.
  assert (forall cmd shell cwd, keeps_world (_run_command self cmd shell cwd))
    as K.
  { intros cmd shell cwd st. unfold _run_command. now rewrite D. }
  unfold _process_repo.
  apply keeps_world_bind; [apply keeps_world_logging | intros _].
  apply keeps_world_bind.
  - apply keeps_world_for_each. intros [cmd_args enabled].
    destruct (truthy enabled); [apply K | apply keeps_world_ret].
  - intros _. apply keeps_world_bind; [apply keeps_world_lift | intros cmds].
    apply keeps_world_bind.
    + apply keeps_world_for_each. intros cmd. apply K.
    + intros _. destruct (truthy (auto_push r));
        [apply K | apply keeps_world_ret].
Qed.

Lemma outcomes_app w s1 s2 :
  outcomes w (s1 ++ s2) = outcomes w s1 ++ outcomes (world_after w s1) s2.
Proof.
  revert w. induction s1 as [|i s1 IH]; intros w; simpl;
    [reflexivity | now rewrite IH].
Qed.

Lemma world_after_app w s1 s2 :
  world_after w (s1 ++ s2) = world_after (world_after w s1) s2.
Proof.
  revert w. induction s1 as [|i s1 IH]; intros w; simpl;
    [reflexivity | apply IH].
Qed.

(** A computation that starts nothing, leaves the world alone and logs
    at most records below ERROR. *)
Lemma traced_quiet {A} (c : M A) :
  (forall st, exists l,
      snd (c st) = logged st l /\ Forall (fun r => is_error r = false) l) ->
  traced c.
Proof.
  intros Q st. destruct (Q st) as (l & E & F). exists [], l.
  rewrite E. simpl. rewrite app_nil_r. now repeat split.
Qed.

Lemma traced_ret {A} (a : A) : traced (ret a).
Proof.
  apply traced_quiet. intros st. exists []. simpl.
  now rewrite logged_nil.
Qed.

Lemma traced_raise {A} e : traced (@raise _ A e).
Proof.
  apply traced_quiet. intros st. exists []. simpl.
  now rewrite logged_nil.
Qed.

Lemma traced_lift {A} (r : exn + A) : traced (lift r).
Proof. destruct r; [apply traced_raise | apply traced_ret]. Qed.

Lemma traced_ask_or {A} e (f : World -> option A) : traced (ask_or e f).
Proof.
  apply traced_quiet. intros st. exists []. unfold ask_or.
  destruct (f (world st)); simpl; now rewrite logged_nil.
Qed.

Lemma traced_logging lvl msg : lvl <> ERROR -> traced (logging lvl msg).
Proof.
  intros N. apply traced_quiet. intros st. exists [(lvl, msg)].
  split; [reflexivity|]. constructor; [|constructor].
  destruct lvl; try reflexivity. now elim N.
Qed.

Lemma traced_bind {A B} (c : M A) (k : A -> M B) :
  traced c -> (forall a, traced (k a)) -> traced (bind c k).
Proof.
  intros Tc Tk st. destruct (Tc st) as (s & l & Es & El & Ew & Fl).
  unfold bind. destruct (c st) as [[a|e] st']; simpl in Es, El, Ew.
  - destruct (Tk a st') as (s' & l' & Es' & El' & Ew' & Fl').
    exists (s ++ s'), (l ++ l').
    rewrite Es', El', Ew', Es, El, Ew, <- !app_assoc, world_after_app.
    repeat split. rewrite outcomes_app. intros F.
    apply Forall_app in F. destruct F as [F1 F2].
    apply Forall_app. split; [now apply Fl|]. apply Fl'.
    now rewrite Ew.
  - exists s, l. now repeat split.
Qed.

Lemma traced_for_each {A} (l : list A) (body : A -> M unit) :
  (forall x, traced (body x)) -> traced (for_each l body).
Proof.
  intros Hb. induction l as [|x l IH]; simpl.
  - apply traced_ret.
  - apply traced_bind; [apply Hb | intros _; exact IH].
Qed.

(** The command runner logs an ERROR record only for a command that it
    started and that did not exit with code 0. *)
Lemma traced_run_command self cmd shell cwd :
  traced (_run_command self cmd shell cwd).
Proof.
  intros st.
  change (_run_command self cmd shell cwd)
    with (run_task self (Invoke cmd shell cwd)).
  destruct (dry_run self) eqn:D.
  - rewrite run_task_dry by exact D. eexists [], [_]. simpl.
    rewrite app_nil_r. repeat split. intros _. now repeat constructor.
  - rewrite run_task_live by exact D. cbv zeta.
    cbn [inv_cmd inv_shell inv_cwd].
    destruct (spawn (world st) cmd shell cwd) as [[e| |rc out err|rc] w]
      eqn:Sp; cbn [snd spawned log world].
    + eexists [], [_]. simpl. rewrite app_nil_r. repeat split.
      intros _. now repeat constructor.
    + exists [Invoke cmd shell cwd]. eexists. simpl. rewrite Sp. simpl.
      split; [reflexivity|]. split; [reflexivity|]. split; [reflexivity|].
      intros _. now repeat constructor.
    + exists [Invoke cmd shell cwd]. eexists. simpl. rewrite Sp. simpl.
      split; [reflexivity|]. split; [reflexivity|]. split; [reflexivity|].
      intros F. inversion F as [|? ? (o & e & Z) _].
      inversion Z. simpl. now repeat constructor.
    + exists [Invoke cmd shell cwd]. eexists. simpl. rewrite Sp. simpl.
      split; [reflexivity|]. split; [reflexivity|]. split; [reflexivity|].
      intros _. now repeat constructor.
Qed.

Lemma traced_run_body self r : traced (run_body self r).
Proof.
  unfold run_body.
  apply traced_bind; [now apply traced_logging | intros _].
  apply traced_bind; [apply traced_ask_or | intros d].
  destruct d; cbn [negb]; [|now apply traced_logging].
  unfold _process_repo.
  apply traced_bind; [now apply traced_logging | intros _].
  apply traced_bind.
  - apply traced_for_each. intros [cmd_args enabled].
    destruct (truthy enabled); [apply traced_run_command | apply traced_ret].
  - intros _. apply traced_bind; [apply traced_lift | intros cmds].
    apply traced_bind.
    + apply traced_for_each. intros cmd. apply traced_run_command.
    + intros _. destruct (truthy (auto_push r));
        [apply traced_run_command | apply traced_ret].
Qed.

Lemma filter_none {A} (f : A -> bool) (l : list A) :
  Forall (fun x => f x = false) l -> filter f l = [].
Proof.
  induction 1 as [|x l E _ IH]; simpl; [reflexivity | now rewrite E].
Qed.

Lemma Forall_False_nil {A} (l : list A) : Forall (fun _ => False) l -> l = [].
Proof. destruct 1; [reflexivity | contradiction]. Qed.
End ProgramFootprints.

(** ** What a run never does *)

Section Never.
Context `{Platform}.

(** X1.  Loading the configuration only reads: whatever the file holds
    and however the load ends, the outside world is unchanged, no process
    has been started, and the log has only grown. *)
Theorem load_is_read_only p st :
  world (snd (load_from_file p st)) = world st
  /\ spawned (snd (load_from_file p st)) = spawned st
  /\ exists l, log (snd (load_from_file p st)) = log st ++ l.
Proof.
  split; [apply keeps_world_load_from_file|].
  destruct (footprint_load_from_file (fun _ => False) p st)
    as (s & l & Es & Fs & El & _).
  apply Forall_False_nil in Fs. subst s. rewrite app_nil_r in Es.
  split; [exact Es | now exists l].
Qed.

(** X2.  A dry housekeeping run touches nothing, whatever the
    [RepoConfig] objects hold (also when a [commands] value is not
    iterable and the run ends with [TypeError]): no process is started
    and the outside world is unchanged. *)
Theorem dry_run_touches_nothing self st :
  dry_run self = true ->
  stale_days self = None ->
  world (snd (run self st)) = world st
  /\ spawned (snd (run self st)) = spawned st.
Proof.
  intros D S. rewrite run_housekeeping by exact S. split.
  - change (world st) with (world (logged st [(INFO, MsgRunning)])).
    apply (keeps_world_for_each (repos (config self)) (run_body self)).
    intros r. unfold run_body.
    apply keeps_world_bind; [apply keeps_world_logging | intros _].
    apply keeps_world_bind; [apply keeps_world_ask_or | intros d].
    destruct d; cbn [negb];
      [now apply keeps_world_dry_process_repo | apply keeps_world_logging].
  - destruct (footprint_for_each (fun _ => False) (fun _ => True)
                (repos (config self)) (run_body self)) with
      (st := logged st [(INFO, MsgRunning)]) as (s & l & Es & Fs & _).
    + intros r _. apply footprint_run_body; [easy|].
      intros cmd shell. apply footprint_run_command; [|easy].
      intros L. rewrite L in D. discriminate.
    + apply Forall_False_nil in Fs. subst s.
      now rewrite app_nil_r in Es.
Qed.

(** X3.  A staleness scan logs no ERROR record.  A housekeeping run
    changes the world only through the commands it starts, and it logs no
    ERROR record when each of the commands it starts exits with code 0
    after writing valid text: the ERROR records of the log are then those
    it had before the run. *)
Theorem no_error_without_failure self st :
  (stale_days self <> None ->
   filter is_error (log (snd (run self st))) = filter is_error (log st))
  /\ (stale_days self = None ->
      exists s,
        spawned (snd (run self st)) = spawned st ++ s
        /\ world (snd (run self st)) = world_after (world st) s
        /\ (Forall exits_zero (outcomes (world st) s) ->
            filter is_error (log (snd (run self st)))
            = filter is_error (log st))).
Proof.
  assert (forall lvl (msg : message), lvl <> ERROR ->
            is_error (lvl, msg) = false) as NE.
  { intros lvl msg N. destruct lvl; try reflexivity. now elim N. }
  split.
  - intros N.
    assert (footprint (fun _ => True) (fun r => is_error r = false)
              (run self)) as F.
    { unfold run. destruct (stale_days self) as [days|] eqn:S;
        [|now elim N].
      unfold _report_stale. rewrite S.
      apply footprint_bind; [apply footprint_logging, NE; discriminate|].
      intros _. apply footprint_bind; [apply footprint_now | intros t].
      apply footprint_for_each. intros r _.
      now apply footprint_report_stale_body. }
    destruct (F st) as (s & l & _ & _ & El & Fl).
    now rewrite El, filter_app, (filter_none _ _ Fl), app_nil_r.
  - intros S.
    assert (traced (run self)) as T.
    { unfold run. rewrite S.
      apply traced_bind; [now apply traced_logging | intros _].
      apply traced_for_each. intros r. apply traced_run_body. }
    destruct (T st) as (s & l & Es & El & Ew & Fl).
    exists s. repeat split; [exact Es | exact Ew |].
    intros F.
    now rewrite El, filter_app, (filter_none _ _ (Fl F)), app_nil_r.
Qed.

(** X4.  In either mode, every process a run starts has as working
    directory the path of one of the configured plans. *)
Theorem commands_run_in_plan_paths self st :
  exists s,
    spawned (snd (run self st)) = spawned st ++ s
    /\ Forall (fun i => exists r, In r (repos (config self))
                                  /\ inv_cwd i = path r) s.
Proof.
  set (P := fun i : invocation =>
              exists r, In r (repos (config self)) /\ inv_cwd i = path r).
  assert (footprint P (fun _ => True) (run self)) as F.
  { unfold run. destruct (stale_days self) as [days|] eqn:S.
    - unfold _report_stale. rewrite S.
      apply footprint_bind; [now apply footprint_logging | intros _].
      apply footprint_bind; [apply footprint_now | intros t].
      apply footprint_for_each. intros r I.
      apply footprint_report_stale_body; [|easy]. now exists r.
    - apply footprint_bind; [now apply footprint_logging | intros _].
      apply footprint_for_each. intros r I.
      apply footprint_run_body; [easy|].
      intros cmd shell. apply footprint_run_command; [|easy].
      intros _. now exists r. }
  destruct (F st) as (s & l & Es & Fs & _). now exists s.
Qed.

(** X5.  A staleness scan starts nothing but [git log -1 --format=%ct],
    as an argument vector and never through a shell: no pull, clean,
    submodule update, push or custom command, whatever the flags of the
    plans. *)
Theorem stale_scan_only_queries self days st :
  stale_days self = Some days ->
  exists s,
    spawned (snd (run self st)) = spawned st ++ s
    /\ Forall (fun i => inv_cmd i = git_log /\ inv_shell i = false) s.
Proof.
  intros S.
  assert (footprint (fun i => inv_cmd i = git_log /\ inv_shell i = false)
            (fun _ => True) (run self)) as F.
  { unfold run, _report_stale. rewrite S.
    apply footprint_bind; [now apply footprint_logging | intros _].
    apply footprint_bind; [apply footprint_now | intros t].
    apply footprint_for_each. intros r _.
    now apply footprint_report_stale_body. }
  destruct (F st) as (s & l & Es & Fs & _). now exists s.
Qed.
End Never.

Lemma dry_run_touches_nothing_witness :
  spawned (snd (run (Cases.engine_of all_ok
                       [Cases.quirky all_ok; Cases.broken all_ok] true None)
                  (initial all_ok (disk all_ok))))
  = [].
Proof.
  apply (dry_run_touches_nothing
           (Cases.engine_of all_ok
              [Cases.quirky all_ok; Cases.broken all_ok] true None)
           (initial all_ok (disk all_ok)) eq_refl eq_refl).
Defined.

Lemma no_error_without_failure_witness :
  filter is_error
    (log (snd (run (engine all_ok false None)
                 (initial all_ok (disk all_ok)))))
  = [].
Proof.
  destruct (no_error_without_failure (engine all_ok false None)
              (initial all_ok (disk all_ok))) as (_ & L).
  destruct (L eq_refl) as (s & Es & _ & F).
  apply F. vm_compute in Es. subst s.
  repeat constructor; exists "", ""; reflexivity.
Defined.

Lemma stale_scan_only_queries_witness :
  exists s,
    spawned (snd (run (engine at_1000 false (Some 30%Z))
                    (initial at_1000 (disk at_1000))))
    = s
    /\ Forall (fun i => inv_cmd i = git_log /\ inv_shell i = false) s.
Proof.
  destruct (stale_scan_only_queries (engine at_1000 false (Some 30%Z)) 30
              (initial at_1000 (disk at_1000)) eq_refl) as (s & E & F).
  exists s. split; [exact E | exact F].
Defined.

(** ** Untyped plans, successful commands *)

Section Untyped.
Context `{Platform}.

Lemma git_tasks_loop self r st :
  for_each
    [ (git_pull, auto_pull r); (git_clean, clean r);
      (git_submodule_update, update_submodules r) ]
    (fun task =>
       let '(cmd_args, enabled) := task in
       if truthy enabled then _run_command self cmd_args false (path r)
       else ret tt) st
  = for_each (config_git_tasks r) (run_task self) st.
Proof.
  unfold config_git_tasks.
  destruct (truthy (auto_pull r)) eqn:A, (truthy (clean r)) eqn:B,
    (truthy (update_submodules r)) eqn:C;
    simpl; unfold bind; rewrite ?A, ?B, ?C; reflexivity.
Qed.

(** X6.  [_process_repo] on any [RepoConfig] object whose [commands] can
    be iterated hands to the command runner, in order: the git tasks
    whose flag is truthy (a non-empty string such as "no" enables a task,
    [0], [None] and [""] disable it), one shell command for every element
    the loop over [commands] visits (so a [commands] value that is a
    single string is run one character at a time), then push when
    [auto_push] is truthy.  A dry run describes them all.  In a live run
    an element that [subprocess] rejects before any process exists (a
    number or [None]: [TypeError]; a string with a NUL character:
    [ValueError]) ends [_process_repo] with that exception right after
    its "Executing" record: no process is started for it, and neither the
    elements after it nor push are run. *)
Theorem process_repo_by_truthiness self r cmds st :
  py_iter (commands r) = inr cmds ->
  let entered := logged st [(INFO, MsgProcessingRepo (path r))] in
  _process_repo self r st
  = (logging INFO (MsgProcessingRepo (path r)) ;;
     for_each (config_tasks r cmds) (run_task self)) st
  /\ (dry_run self = true ->
      _process_repo self r st
      = (Return tt, logged entered (map describe (config_tasks r cmds))))
  /\ (dry_run self = false ->
      forall good bad rest e st1,
        cmds = good ++ bad :: rest ->
        popen_error bad true = Some e ->
        for_each (config_git_tasks r
                  ++ map (fun c => Invoke c true (path r)) good)
          (run_task self) entered = (Return tt, st1) ->
        _process_repo self r st
        = (Raise e,
           logged st1 [(INFO, MsgExecuting "shell" bad (path r))])).
Proof.
  intros I entered.
  assert (_process_repo self r st
          = (logging INFO (MsgProcessingRepo (path r)) ;;
             for_each (config_tasks r cmds) (run_task self)) st) as E.
  { unfold _process_repo, config_tasks.
    apply bind_ext; [reflexivity | intros _ st1].
    rewrite for_each_app. apply bind_ext; [apply git_tasks_loop|].
    intros _ st2. rewrite I. cbn [lift].
    change (bind (ret ?l) ?k st2) with (k l st2). cbv beta.
    rewrite for_each_app. apply bind_ext.
    - intros st3. symmetry. apply for_each_map. reflexivity.
    - intros _ st3. destruct (truthy (auto_push r)); simpl; [|reflexivity].
      symmetry. apply bind_ret_r. }
  split; [exact E|]. split.
  - intros D. rewrite E. unfold bind. rewrite logging_eq. fold entered.
    now apply tasks_dry.
  - intros L good bad rest e st1 C P G. rewrite E.
    unfold bind at 1. rewrite logging_eq. fold entered.
    unfold config_tasks. rewrite C, map_app, !app_assoc.
    rewrite <- (app_assoc _ (map _ (bad :: rest))).
    rewrite for_each_app, (bind_Return _ _ _ _ _ G).
    simpl. apply bind_Raise.
    rewrite run_task_live by exact L. cbv zeta.
    cbn [inv_cmd inv_shell inv_cwd]. unfold spawn. now rewrite P.
Qed.

(** X7.  [_process_repo] on a [RepoConfig] object whose [commands] cannot
    be iterated (a number, [True]): the enabled git tasks other than push
    run first, then the error of the loop is raised; no shell command and
    no push is started. *)
Theorem process_repo_bad_commands self r e st :
  py_iter (commands r) = inl e ->
  _process_repo self r st
  = (logging INFO (MsgProcessingRepo (path r)) ;;
     for_each (config_git_tasks r) (run_task self) ;;
     raise e) st.
Proof.
  intros I. unfold _process_repo.
  apply bind_ext; [reflexivity | intros _ st1].
  apply bind_ext; [apply git_tasks_loop|].
  intros _ st2. rewrite I. reflexivity.
Qed.

(** X8.  In a live housekeeping run that has reached task [t] of plan
    [p]: if [t] exits with code 0 and what it wrote is valid text, its
    captured standard output is logged at level DEBUG after the
    "Executing" record, nothing is logged at level ERROR, and the run
    goes on with the remaining tasks of [p] and the later plans.  If what
    [t] wrote cannot be decoded, the run ends with [UnicodeDecodeError]
    right after the "Executing" record, whatever the exit code. *)
Theorem success_logged_at_debug self before p after done t todo st0 st :
  dry_run self = false ->
  stale_days self = None ->
  repos (config self) = map to_config (before ++ p :: after) ->
  task_sequence p = done ++ t :: todo ->
  reaches self before p done st0 st ->
  let executing :=
    (INFO, MsgExecuting (if inv_shell t then "shell" else "git")
             (inv_cmd t) (inv_cwd t)) in
  (forall out err w,
     spawn (world st) (inv_cmd t) (inv_shell t) (inv_cwd t)
       = (Completed 0 out err, w) ->
     let st' :=
       mkState w (log st ++ [executing; (DEBUG, MsgOutput out)])
         (spawned st ++ [t]) in
     run_task self t st = (Return tt, st')
     /\ run self st0
        = (for_each todo (run_task self) ;;
           for_each (map to_config after) (run_body self)) st')
  /\ (forall rc w,
        spawn (world st) (inv_cmd t) (inv_shell t) (inv_cwd t)
          = (Garbled rc, w) ->
        run self st0
        = (Raise UnicodeDecodeError,
           mkState w (log st ++ [executing]) (spawned st ++ [t]))).
Proof.
  intros L S R T Rch executing.
  pose proof (run_resume self before p after done (t :: todo) st0 st
                S R T Rch) as Res.
  simpl for_each in Res. rewrite bind_assoc in Res.
  pose proof (run_task_live self t st L) as E. cbv zeta in E.
  split.
  - intros out err w Sp st'. rewrite Sp in E. simpl in E.
    split; [exact E|]. now rewrite Res, (bind_Return _ _ _ _ _ E).
  - intros rc w Sp. rewrite Sp in E.
    now rewrite Res, (bind_Raise _ _ _ _ _ E).
Qed.
End Untyped.

Lemma process_repo_by_truthiness_witness :
  spawned (snd (_process_repo (Cases.engine_of all_ok [] false None)
                  (Cases.quirky all_ok) (initial all_ok (disk all_ok))))
  = [Invoke git_pull false (r1 all_ok);
     Invoke git_submodule_update false (r1 all_ok);
     Invoke (VStr "l") true (r1 all_ok);
     Invoke (VStr "s") true (r1 all_ok)]
  /\ _process_repo (Cases.engine_of all_ok [] false None)
       (Cases.mixed all_ok) (initial all_ok (disk all_ok))
     = (Raise TypeError,
        mkState (disk all_ok)
          [(INFO, MsgProcessingRepo (r1 all_ok));
           (INFO, MsgExecuting "shell" (VStr "ls") (r1 all_ok));
           (DEBUG, MsgOutput "");
           (INFO, MsgExecuting "shell" (VInt 5) (r1 all_ok))]
          [Invoke (VStr "ls") true (r1 all_ok)]).
Proof.
  split.
  - destruct (process_repo_by_truthiness
                (Cases.engine_of all_ok [] false None)
                (Cases.quirky all_ok) [VStr "l"; VStr "s"]
                (initial all_ok (disk all_ok)) eq_refl) as (E & _).
    rewrite E. reflexivity.
  - destruct (process_repo_by_truthiness
                (Cases.engine_of all_ok [] false None)
                (Cases.mixed all_ok) [VStr "ls"; VInt 5; VStr "x"]
                (initial all_ok (disk all_ok)) eq_refl) as (_ & _ & E).
    rewrite (E eq_refl [VStr "ls"] (VInt 5) [VStr "x"] TypeError
               (mkState (disk all_ok)
                  [(INFO, MsgProcessingRepo (r1 all_ok));
                   (INFO, MsgExecuting "shell" (VStr "ls") (r1 all_ok));
                   (DEBUG, MsgOutput "")]
                  [Invoke (VStr "ls") true (r1 all_ok)])
               eq_refl eq_refl eq_refl).
    reflexivity.
Defined.

Lemma process_repo_bad_commands_witness :
  _process_repo (Cases.engine_of all_ok [] false None)
    (Cases.broken all_ok) (initial all_ok (disk all_ok))
  = (Raise TypeError,
     mkState (disk all_ok)
       [(INFO, MsgProcessingRepo (r1 all_ok));
        (INFO, MsgExecuting "git" git_pull (r1 all_ok));
        (DEBUG, MsgOutput "")]
       [Invoke git_pull false (r1 all_ok)]).
Proof.
  rewrite (process_repo_bad_commands (Cases.engine_of all_ok [] false None)
             (Cases.broken all_ok) TypeError
             (initial all_ok (disk all_ok)) eq_refl).
  reflexivity.
Defined.

Lemma success_logged_at_debug_witness :
  fst (run_task (engine all_ok false None) (pull_r1 all_ok)
         (entered_r1 all_ok)) = Return tt
  /\ filter is_error
       (log (snd (run_task (engine all_ok false None) (pull_r1 all_ok)
                    (entered_r1 all_ok)))) = [].
Proof.
  destruct (success_logged_at_debug (engine all_ok false None)
              [] (full_plan all_ok) [pull_only all_ok]
              [] (pull_r1 all_ok)
              (tl (task_sequence (full_plan all_ok)))
              (initial all_ok (disk all_ok)) (entered_r1 all_ok)
              eq_refl eq_refl eq_refl eq_refl) as (E & _).
  - exists (booted all_ok (disk all_ok)). repeat split.
  - destruct (E "" "" (disk all_ok) eq_refl) as (R & _).
    rewrite R. split; reflexivity.
Defined.

(** ** More on the staleness scan *)

Section Scan.
Context `{Platform}.

Lemma scan_resume self days before r after st0 st :
  stale_days self = Some days ->
  repos (config self) = before ++ r :: after ->
  scan_reaches days before st0 st ->
  run self st0
  = (_report_stale_body (scan_cutoff days st0) r ;;
     for_each after (_report_stale_body (scan_cutoff days st0))) st.
Proof.
  intros S R B. rewrite report_stale_unfold with (days := days) by exact S.
  fold (scan_cutoff days st0).
  rewrite R, for_each_app, (bind_Return _ _ _ _ _ B). reflexivity.
Qed.

(** X9.  In a staleness scan that comes to a plan whose path is a
    directory: if [git log] exits with a non-zero code (no commit yet, not
    a repository), a WARNING "Could not determine last commit" is logged
    for the plan, nothing is raised, and the scan goes on with the plans
    that follow. *)
Theorem stale_query_failure_warned self days before r after st0 st
    rc out err w2 :
  stale_days self = Some days ->
  repos (config self) = before ++ r :: after ->
  scan_reaches days before st0 st ->
  is_dir (world st) (path r) = Some true ->
  spawn (world st) git_log false (path r) = (Completed rc out err, w2) ->
  rc <> 0%Z ->
  run self st0
  = for_each after (_report_stale_body (scan_cutoff days st0))
      (mkState w2 (log st ++ [(WARNING, MsgNoLastCommit (path r))])
         (spawned st ++ [Invoke git_log false (path r)])).
Proof.
  intros S R B D Sp NZ. rewrite (scan_resume self days before r after st0 st)
    by assumption.
  erewrite bind_Return; [reflexivity|].
  unfold _report_stale_body, bind, ask_or. rewrite D. cbn [negb].
  unfold except_CalledProcessError, check_output, bind.
  rewrite (start_accepted git_log false (path r) st eq_refl), Sp.
  cbn. apply Z.eqb_neq in NZ. rewrite NZ. reflexivity.
Qed.

(** X10.  In a staleness scan that comes to a plan whose path is a
    directory: if [git log] cannot be started, the [OSError] ends the
    scan; if it exits with code 0 but prints something [int] rejects, the
    [ValueError] ends the scan; if what it prints cannot be decoded, the
    [UnicodeDecodeError] ends the scan.  None is caught by the handler of
    [CalledProcessError]: nothing is logged for the plan and the plans
    that follow are not examined. *)
Theorem stale_query_exceptions_abort self days before r after st0 st w2 :
  stale_days self = Some days ->
  repos (config self) = before ++ r :: after ->
  scan_reaches days before st0 st ->
  is_dir (world st) (path r) = Some true ->
  let st' := mkState w2 (log st)
               (spawned st ++ [Invoke git_log false (path r)]) in
  (spawn (world st) git_log false (path r) = (LaunchError, w2) ->
   run self st0 = (Raise OSError, st'))
  /\ (forall out err,
        spawn (world st) git_log false (path r) = (Completed 0 out err, w2) ->
        py_int (strip out) = None ->
        run self st0 = (Raise ValueError, st'))
  /\ (forall rc,
        spawn (world st) git_log false (path r) = (Garbled rc, w2) ->
        run self st0 = (Raise UnicodeDecodeError, st')).
Proof.
  intros S R B D st'.
  assert (forall e,
            _report_stale_body (scan_cutoff days st0) r st = (Raise e, st') ->
            run self st0 = (Raise e, st')) as Abort.
  { intros e E.
    rewrite (scan_resume self days before r after st0 st) by assumption.
    now apply bind_Raise. }
  split; [|split].
  - intros Sp. apply Abort.
    unfold _report_stale_body, bind, ask_or. rewrite D. cbn [negb].
    unfold except_CalledProcessError, check_output, bind.
    rewrite (start_accepted git_log false (path r) st eq_refl), Sp.
    reflexivity.
  - intros out err Sp I. apply Abort.
    unfold _report_stale_body, bind, ask_or. rewrite D. cbn [negb].
    unfold except_CalledProcessError, check_output, bind.
    rewrite (start_accepted git_log false (path r) st eq_refl), Sp.
    cbn. rewrite I. reflexivity.
  - intros rc Sp. apply Abort.
    unfold _report_stale_body, bind, ask_or. rewrite D. cbn [negb].
    unfold except_CalledProcessError, check_output, bind.
    rewrite (start_accepted git_log false (path r) st eq_refl), Sp.
    reflexivity.
Qed.

(** X11.  In a staleness scan that comes to a plan whose path is a
    directory and whose query prints the time [last]: exactly one STALE
    record is logged for the plan when [last] is strictly before the
    cutoff, or when [update_submodules] is truthy and [.gitmodules]
    exists; otherwise nothing is logged for it.  Either way the scan goes
    on with the plans that follow, unless the test for [.gitmodules]
    itself raises, which ends the scan. *)
Theorem stale_report_exact self days before r after st0 st
    out err w2 last :
  stale_days self = Some days ->
  repos (config self) = before ++ r :: after ->
  scan_reaches days before st0 st ->
  is_dir (world st) (path r) = Some true ->
  spawn (world st) git_log false (path r) = (Completed 0 out err, w2) ->
  py_int (strip out) = Some last ->
  let w3 := snd (time_time w2) in
  match classified_stale w3 (scan_cutoff days st0) last r with
  | Some flagged =>
      run self st0
      = for_each after (_report_stale_body (scan_cutoff days st0))
          (mkState w3
             (log st ++
              if flagged
              then [(INFO, MsgStale (path r)
                             ((fst (time_time w2) - inject_Z last) / 86400))]
              else [])
             (spawned st ++ [Invoke git_log false (path r)]))
  | None =>
      run self st0
      = (Raise OSError,
         mkState w3 (log st) (spawned st ++ [Invoke git_log false (path r)]))
  end
  /\ (classified_stale w3 (scan_cutoff days st0) last r = Some true <->
      (inject_Z last < scan_cutoff days st0)%Q
      \/ (truthy (update_submodules r) = true
          /\ path_exists w3 (joinpath (path r) ".gitmodules") = Some true)).
Proof.
  intros S R B D Sp I w3. split.
  - rewrite (scan_resume self days before r after st0 st) by assumption.
    pose proof (report_stale_body_ok (scan_cutoff days st0) r st out err w2
                  last D Sp I) as E.
    fold w3 in E.
    destruct (classified_stale w3 (scan_cutoff days st0) last r).
    + now rewrite (bind_Return _ _ _ _ _ E).
    + now rewrite (bind_Raise _ _ _ _ _ E).
  - unfold classified_stale. rewrite <- Qltb_lt.
    destruct (Qltb (inject_Z last) (scan_cutoff days st0)).
    + split; [now left | reflexivity].
    + destruct (truthy (update_submodules r)).
      * split; [intros E; right; now split | now intros [F|[_ E]]].
      * split; [discriminate | now intros [F|[F _]]].
Qed.

(** X12.  In a staleness scan, a plan whose path is not a directory is
    passed over in silence: no process is started and, unlike in
    housekeeping mode, no record is logged; the scan goes on with the
    plans that follow. *)
Theorem stale_missing_path_silent self days before r after st0 st :
  stale_days self = Some days ->
  repos (config self) = before ++ r :: after ->
  scan_reaches days before st0 st ->
  is_dir (world st) (path r) = Some false ->
  run self st0
  = for_each after (_report_stale_body (scan_cutoff days st0)) st.
Proof.
  intros S R B D.
  rewrite (scan_resume self days before r after st0 st) by assumption.
  erewrite bind_Return; [reflexivity|].
  unfold _report_stale_body, bind, ask_or. now rewrite D.
Qed.
End Scan.

Lemma stale_query_failure_warned_witness :
  log (snd (run (engine Cases.exits_128 false (Some 30%Z))
              (initial Cases.exits_128 (disk Cases.exits_128))))
  = [(INFO, MsgScanning 30);
     (WARNING, MsgNoLastCommit (r1 Cases.exits_128));
     (WARNING, MsgNoLastCommit (r2 Cases.exits_128))].
Proof.
  rewrite (stale_query_failure_warned
             (engine Cases.exits_128 false (Some 30%Z)) 30
             [] (to_config (full_plan Cases.exits_128))
             [to_config (pull_only Cases.exits_128)]
             (initial Cases.exits_128 (disk Cases.exits_128))
             (Cases.scanning Cases.exits_128 (disk Cases.exits_128))
             128 "" "fatal: not a git repository" (disk Cases.exits_128)
             eq_refl eq_refl eq_refl eq_refl eq_refl).
  - reflexivity.
  - discriminate.
Defined.

Lemma stale_query_exceptions_abort_witness :
  fst (run (engine Cases.prints_head false (Some 30%Z))
         (initial Cases.prints_head (disk Cases.prints_head)))
  = Raise ValueError.
Proof.
  destruct (stale_query_exceptions_abort
              (engine Cases.prints_head false (Some 30%Z)) 30
              [] (to_config (full_plan Cases.prints_head))
              [to_config (pull_only Cases.prints_head)]
              (initial Cases.prints_head (disk Cases.prints_head))
              (Cases.scanning Cases.prints_head (disk Cases.prints_head))
              (disk Cases.prints_head)
              eq_refl eq_refl eq_refl eq_refl) as (_ & V & _).
  now rewrite (V "HEAD" "" eq_refl eq_refl).
Defined.

Lemma stale_report_exact_witness :
  filter is_stale_record
    (log (snd (run (engine at_2591000 false (Some 30%Z))
                 (initial at_2591000 (day_30 at_2591000)))))
  = [(INFO, MsgStale (r1 at_2591000) (inject_Z 1000 / 86400))].
Proof.
  destruct (stale_report_exact
              (engine at_2591000 false (Some 30%Z)) 30
              [] (to_config (full_plan at_2591000))
              [to_config (pull_only at_2591000)]
              (initial at_2591000 (day_30 at_2591000))
              (Cases.scanning at_2591000 (day_30 at_2591000))
              (timestamp_line "2591000") "" (day_30 at_2591000) 2591000
              eq_refl eq_refl eq_refl eq_refl eq_refl eq_refl) as (E & _).
  hnf in E. rewrite E. reflexivity.
Defined.

Lemma stale_missing_path_silent_witness :
  log (snd (run (engine at_1000 false (Some 30%Z))
              (initial at_1000 (moved_disk at_1000))))
  = [(INFO, MsgScanning 30)].
Proof.
  rewrite (stale_missing_path_silent
             (engine at_1000 false (Some 30%Z)) 30
             [] (to_config (full_plan at_1000))
             [to_config (pull_only at_1000)]
             (initial at_1000 (moved_disk at_1000))
             (Cases.scanning at_1000 (moved_disk at_1000))
             eq_refl eq_refl eq_refl eq_refl).
  reflexivity.
Defined.

(** ** More on the resolution of the configuration *)

Section Loading.
Context `{Platform}.

Lemma plan_records_map items ps :
  plan_records (map (entry_config items) ps) = flat_map entry_records ps.
Proof.
  unfold plan_records. induction ps as [|p ps IH]; simpl;
    [reflexivity | now rewrite IH].
Qed.

Lemma plan_records_app l1 l2 :
  plan_records (l1 ++ l2) = plan_records l1 ++ plan_records l2.
Proof. unfold plan_records. apply flat_map_app. Qed.

Lemma load_entry_plans repos items plans st :
  entry_plans (world st) items = inr plans ->
  load_entry repos (VDict items) st
  = (Return (repos ++ plans), logged st (plan_records plans)).
Proof.
  unfold entry_plans. intros E.
  destruct (dict_get items "path") as [[| | |raw| |]|] eqn:P;
    try discriminate.
  rewrite (load_entry_dict repos items raw st P).
  destruct (matched (world st) raw) as [e|ps]; [discriminate|].
  inversion E. now rewrite plan_records_map.
Qed.

Lemma load_entry_unlistable repos items raw st e :
  dict_get items "path" = Some (VStr raw) ->
  matched (world st) raw = inl e ->
  load_entry repos (VDict items) st = (Raise e, st).
Proof.
  intros P N. rewrite (load_entry_dict repos items raw st P).
  now rewrite N.
Qed.

Lemma load_entries_ok w itemss pss :
  Forall2 (fun items ps => entry_plans w items = inr ps) itemss pss ->
  forall rest acc st,
    world st = w ->
    fold_each (map VDict itemss ++ rest) acc load_entry st
    = fold_each rest (acc ++ List.concat pss) load_entry
        (logged st (plan_records (List.concat pss))).
Proof.
  induction 1 as [|items ps itemss pss E _ IH]; intros rest acc st W.
  - simpl. now rewrite app_nil_r, logged_nil.
  - simpl map. simpl app. simpl fold_each. subst w.
    rewrite (bind_Return _ _ _ _ _
               (load_entry_plans acc items ps st E)).
    rewrite IH by reflexivity.
    simpl List.concat. now rewrite plan_records_app, logged_logged, app_assoc.
Qed.

(** X13.  A configuration whose [repos] entries are mappings with a
    string [path] that can be resolved loads into the plans of the first
    entry, then those of the second, and so on, each entry's plans in the
    order of its directory listing.  Nothing is removed: a path matched by
    two entries yields two plans, each with the flags of its own entry.  A
    missing [repos] key counts as an empty list. *)
Theorem load_resolves_in_order p st top itemss pss :
  path_exists (world st) p = Some true ->
  safe_load (world st) p = Loaded (VDict top) ->
  entry_field top "repos" (VList []) = VList (map VDict itemss) ->
  Forall2 (fun items ps => entry_plans (world st) items = inr ps)
    itemss pss ->
  load_from_file p st
  = (Return (mkConfig (List.concat pss)),
     logged st ((INFO, MsgLoading p)
                :: plan_records (List.concat pss)
                ++ [(DEBUG, MsgInitConfig (map path (List.concat pss)))])).
Proof.
  intros E L R F. rewrite (load_from_file_parsed p st (VDict top) E L).
  cbn [py_get lift]. fold (entry_field top "repos" (VList [])). rewrite R.
  change (bind (ret ?v) ?k ?s) with (k v s). cbv beta.
  cbn [py_iter lift]. change (bind (ret ?v) ?k ?s) with (k v s). cbv beta.
  unfold bind.
  rewrite <- (app_nil_r (map VDict itemss)).
  rewrite (load_entries_ok (world st) itemss pss F) by reflexivity.
  simpl. unfold logged, GitAroundConfig_init, bind, logging, ret.
  simpl. now rewrite <- !app_assoc.
Qed.

(** X14.  Entries are resolved one after the other: when the resolution
    of an entry raises (the directory a glob has to search cannot be
    listed: [OSError]; a file-system test raises: [OSError]; the home
    directory is not known: [RuntimeError]), [load_from_file] ends with
    that exception right there; the plans of the entries before it are
    lost with it and the entries after it are never looked at. *)
Theorem load_aborts_at_unlistable_glob p st top itemss pss items raw rest
    e :
  path_exists (world st) p = Some true ->
  safe_load (world st) p = Loaded (VDict top) ->
  entry_field top "repos" (VList [])
    = VList (map VDict itemss ++ VDict items :: rest) ->
  Forall2 (fun items ps => entry_plans (world st) items = inr ps)
    itemss pss ->
  dict_get items "path" = Some (VStr raw) ->
  matched (world st) raw = inl e ->
  load_from_file p st
  = (Raise e,
     logged st ((INFO, MsgLoading p) :: plan_records (List.concat pss))).
Proof.
  intros E L R F P N. rewrite (load_from_file_parsed p st (VDict top) E L).
  cbn [py_get lift]. fold (entry_field top "repos" (VList [])). rewrite R.
  change (bind (ret ?v) ?k ?s) with (k v s). cbv beta.
  cbn [py_iter lift]. change (bind (ret ?v) ?k ?s) with (k v s). cbv beta.
  apply bind_Raise.
  rewrite (load_entries_ok (world st) itemss pss F) by reflexivity.
  simpl fold_each. apply bind_Raise.
  rewrite load_entry_unlistable with (raw := raw) (e := e) by assumption.
  now rewrite logged_logged.
Qed.

(** X15.  An entry that gives none of [auto_pull], [auto_push], [clean],
    [update_submodules] and [commands] yields plans with pull enabled,
    push, clean and submodule update disabled, and no extra command. *)
Theorem defaults_propagate repos items plans st :
  entry_plans (world st) items = inr plans ->
  dict_get items "auto_pull" = None ->
  dict_get items "auto_push" = None ->
  dict_get items "clean" = None ->
  dict_get items "update_submodules" = None ->
  dict_get items "commands" = None ->
  fst (load_entry repos (VDict items) st) = Return (repos ++ plans)
  /\ forall r, In r plans ->
       r = to_config (mkPlan (path r) true false false false []).
Proof.
  intros E A B C D F. split.
  - now rewrite (load_entry_plans repos items plans st E).
  - unfold entry_plans in E.
    destruct (dict_get items "path") as [[| | |raw| |]|]; try discriminate.
    destruct (matched (world st) raw) as [e|ps]; [discriminate|].
    inversion E. intros r I. apply in_map_iff in I.
    destruct I as (q & <- & _).
    unfold entry_config, entry_field, to_config.
    now rewrite A, B, C, D, F.
Qed.

(** X16.  Shapes of the parsed document that end [load_from_file] with an
    uncaught exception, with nothing logged after the "Loading" record: a
    document that is not a mapping ([AttributeError]); a [repos] value
    that cannot be iterated, such as [null] ([TypeError]); a first entry
    that is not a mapping, which includes every entry of a [repos] value
    given as a string or a mapping ([AttributeError]); a first entry whose
    [path] is not a string ([TypeError]). *)
Theorem load_shape_errors p st data :
  path_exists (world st) p = Some true ->
  safe_load (world st) p = Loaded data ->
  let loading := logged st [(INFO, MsgLoading p)] in
  ((forall top, data <> VDict top) ->
   load_from_file p st = (Raise AttributeError, loading))
  /\ (forall top e,
        data = VDict top ->
        py_iter (entry_field top "repos" (VList [])) = inl e ->
        load_from_file p st = (Raise e, loading))
  /\ (forall top entry others,
        data = VDict top ->
        py_iter (entry_field top "repos" (VList [])) = inr (entry :: others) ->
        (forall items, entry <> VDict items) ->
        load_from_file p st = (Raise AttributeError, loading))
  /\ (forall top items others v,
        data = VDict top ->
        py_iter (entry_field top "repos" (VList []))
          = inr (VDict items :: others) ->
        dict_get items "path" = Some v ->
        (forall s, v <> VStr s) ->
        load_from_file p st = (Raise TypeError, loading)).
Proof.
  intros E L loading.
  rewrite (load_from_file_parsed p st data E L). fold loading.
  split; [|split; [|split]].
  - intros N. destruct data; try reflexivity. now elim (N items).
  - intros top e -> I. cbn [py_get lift].
    fold (entry_field top "repos" (VList [])).
    change (bind (ret ?v) ?k ?s) with (k v s). cbv beta.
    now rewrite I.
  - intros top entry others -> I N. cbn [py_get lift].
    fold (entry_field top "repos" (VList [])).
    change (bind (ret ?v) ?k ?s) with (k v s). cbv beta.
    rewrite I. cbn [lift].
    change (bind (ret ?v) ?k ?s) with (k v s). cbv beta.
    apply bind_Raise. simpl fold_each. apply bind_Raise.
    unfold load_entry. destruct entry; try reflexivity. now elim (N items).
  - intros top items others v -> I P N. cbn [py_get lift].
    fold (entry_field top "repos" (VList [])).
    change (bind (ret ?v) ?k ?s) with (k v s). cbv beta.
    rewrite I. cbn [lift].
    change (bind (ret ?v) ?k ?s) with (k v s). cbv beta.
    apply bind_Raise. simpl fold_each. apply bind_Raise.
    unfold load_entry. cbn [py_get lift]. rewrite P.
    change (bind (ret ?v) ?k ?s) with (k v s). cbv beta iota.
    destruct v; try reflexivity. now elim (N s).
Qed.

(** X17.  When the configuration file does not exist, or exists and does
    not parse, [main] logs one ERROR record that says which, and ends with
    [SystemExit(1)]: no plan is resolved, no process is started and the
    outside world is unchanged. *)
Theorem main_fatal_exit cp dry stale st :
  let w := world st in
  (path_exists w cp = Some false ->
   main cp dry stale st
   = (Raise (SystemExit 1),
      logged st [(INFO, MsgUsingConfig cp); (INFO, MsgLoading cp);
                 (ERROR, MsgConfigNotFound cp)]))
  /\ (path_exists w cp = Some true -> safe_load w cp = YAMLError ->
      main cp dry stale st
      = (Raise (SystemExit 1),
         logged st [(INFO, MsgUsingConfig cp); (INFO, MsgLoading cp);
                    (ERROR, MsgParseFailed)])).
Proof.
  intros w. split.
  - intros E.
    unfold main, load_from_file, bind, logging, ask_or, ask, logged.
    cbn [world log spawned]. fold w. rewrite E. cbn.
    now rewrite <- !app_assoc.
  - intros E L.
    unfold main, load_from_file, bind, logging, ask_or, ask, logged.
    cbn [world log spawned]. fold w. rewrite E. cbn [negb ret world].
    fold w. rewrite L. cbn. now rewrite <- !app_assoc.
Qed.
End Loading.

Lemma load_resolves_in_order_witness :
  fst (load_from_file (cfg all_ok)
         (initial all_ok (srv all_ok (Loaded Cases.overlapping))))
  = Return (mkConfig
              [entry_config [("path", VStr "/srv/a*")] (srv_app all_ok);
               entry_config [("path", VStr "/srv/app");
                             ("auto_push", VBool true)] (srv_app all_ok)]).
Proof.
  rewrite (load_resolves_in_order (cfg all_ok)
             (initial all_ok (srv all_ok (Loaded Cases.overlapping)))
             [("repos",
               VList [VDict [("path", VStr "/srv/a*")];
                      VDict [("path", VStr "/srv/app");
                             ("auto_push", VBool true)]])]
             [[("path", VStr "/srv/a*")];
              [("path", VStr "/srv/app"); ("auto_push", VBool true)]]
             [[entry_config [("path", VStr "/srv/a*")] (srv_app all_ok)];
              [entry_config [("path", VStr "/srv/app");
                             ("auto_push", VBool true)] (srv_app all_ok)]]
             eq_refl eq_refl eq_refl).
  - reflexivity.
  - repeat constructor.
Defined.

Lemma load_aborts_at_unlistable_glob_witness :
  fst (load_from_file (cfg all_ok)
         (initial all_ok
            (Cases.homeless all_ok (Loaded Cases.then_unlistable))))
  = Raise OSError.
Proof.
  rewrite (load_aborts_at_unlistable_glob (cfg all_ok)
             (initial all_ok
                (Cases.homeless all_ok (Loaded Cases.then_unlistable)))
             [("repos",
               VList [VDict [("path", VStr "/srv/app")];
                      VDict [("path", VStr "/gone/a*")];
                      VDict [("path", VStr "/srv/app")]])]
             [[("path", VStr "/srv/app")]]
             [[entry_config [("path", VStr "/srv/app")] (srv_app all_ok)]]
             [("path", VStr "/gone/a*")] "/gone/a*"
             [VDict [("path", VStr "/srv/app")]] OSError
             eq_refl eq_refl eq_refl).
  - reflexivity.
  - repeat constructor.
  - reflexivity.
  - reflexivity.
Defined.

Lemma defaults_propagate_witness :
  fst (load_entry [] (VDict [("path", VStr "/srv/a*")])
         (initial all_ok (srv all_ok (Loaded (one_entry "/srv/a*")))))
  = Return [to_config (mkPlan (srv_app all_ok) true false false false [])].
Proof.
  destruct (defaults_propagate [] [("path", VStr "/srv/a*")]
              [entry_config [("path", VStr "/srv/a*")] (srv_app all_ok)]
              (initial all_ok (srv all_ok (Loaded (one_entry "/srv/a*"))))
              eq_refl eq_refl eq_refl eq_refl eq_refl eq_refl) as (E & _).
  rewrite E. reflexivity.
Defined.

Lemma load_shape_errors_witness :
  fst (load_from_file (cfg all_ok)
         (initial all_ok (srv all_ok (Loaded (VList [])))))
  = Raise AttributeError.
Proof.
  destruct (load_shape_errors (cfg all_ok)
              (initial all_ok (srv all_ok (Loaded (VList []))))
              (VList []) eq_refl eq_refl) as (E & _).
  rewrite E; [reflexivity | discriminate].
Defined.

Lemma main_fatal_exit_witness :
  fst (main (cfg all_ok) false None (initial all_ok (disk all_ok)))
  = Raise (SystemExit 1)
  /\ spawned (snd (main (cfg all_ok) false None
                     (initial all_ok (disk all_ok)))) = [].
Proof.
  destruct (main_fatal_exit (cfg all_ok) false None
              (initial all_ok (disk all_ok))) as (E & _).
  rewrite (E eq_refl). split; reflexivity.
Defined.
